(** * Project-Plan: spreadsheet rows to tracker issues, and the dashboard

    A shallow embedding of the reconciliation scripts of this repository:
    - [sync-local.js] (sheet export to issues),
    - [scripts/sync-issues.js] (three scripts concatenated; the last one also
      sets the dates on the project board),
    - the Apps Script variant ([unnamed/part_000]),
    - the dashboard loader [src/types.ts].

    JavaScript strings are modelled as [string] (ASCII bytes); numbers coming
    from a sheet as [Z]; the facilities of the JavaScript host that this
    repository does not define (the implementation-specific part of
    [Date.parse], the time zone, [new Date(number)]) are Section variables,
    so every theorem holds for every host. *)

From Stdlib Require Import ZArith Ascii String List Bool Lia Sorting.Sorted.
Import ListNotations.
Open Scope string_scope.
Open Scope Z_scope.

(** ** JavaScript string operations *)
Module JS.

Definition is_digit (c : ascii) : bool :=
  (48 <=? nat_of_ascii c)%nat && (nat_of_ascii c <=? 57)%nat.

(** [\w]: ASCII letters, digits and underscore. *)
Definition is_word (c : ascii) : bool :=
  let n := nat_of_ascii c in
  is_digit c || ((65 <=? n)%nat && (n <=? 90)%nat)
  || ((97 <=? n)%nat && (n <=? 122)%nat) || (n =? 95)%nat.

(** JavaScript white space and line terminators, restricted to ASCII. *)
Definition is_space (c : ascii) : bool :=
  let n := nat_of_ascii c in
  (n =? 32)%nat || ((9 <=? n)%nat && (n <=? 13)%nat).

Definition lower_char (c : ascii) : ascii :=
  let n := nat_of_ascii c in
  if (65 <=? n)%nat && (n <=? 90)%nat then ascii_of_nat (n + 32) else c.

(** [String.prototype.toLowerCase] *)
Fixpoint toLowerCase (s : string) : string :=
  match s with
  | EmptyString => EmptyString
  | String c r => String (lower_char c) (toLowerCase r)
  end.

Fixpoint prefixb (p s : string) : bool :=
  match p, s with
  | EmptyString, _ => true
  | String a p', String b s' => Ascii.eqb a b && prefixb p' s'
  | String _ _, EmptyString => false
  end.

(** [hay.includes(needle)] *)
Fixpoint includes (hay needle : string) : bool :=
  prefixb needle hay ||
  match hay with
  | EmptyString => false
  | String _ r => includes r needle
  end.

Fixpoint trim_start (s : string) : string :=
  match s with
  | String c r => if is_space c then trim_start r else s
  | EmptyString => EmptyString
  end.

Definition rev_string (s : string) : string :=
  string_of_list_ascii (rev (list_ascii_of_string s)).

(** [String.prototype.trim] *)
Definition trim (s : string) : string :=
  rev_string (trim_start (rev_string (trim_start s))).

(** [s.split(sep)[0]] for a one-character separator. *)
Fixpoint split_first (sep : ascii) (s : string) : string :=
  match s with
  | EmptyString => EmptyString
  | String c r => if Ascii.eqb c sep then EmptyString else String c (split_first sep r)
  end.

(** [s.padStart(2, '0')] *)
Definition padStart2 (s : string) : string :=
  match s with
  | EmptyString => "00"
  | String _ EmptyString => String "0" s
  | _ => s
  end.

Definition digit_char (n : Z) : ascii := ascii_of_nat (48 + Z.to_nat n).
Definition digit_val (c : ascii) : Z := Z.of_nat (nat_of_ascii c) - 48.

Fixpoint nat_digits (fuel : nat) (n : Z) (acc : string) : string :=
  match fuel with
  | O => acc
  | S f =>
      let acc' := String (digit_char (n mod 10)) acc in
      if n <? 10 then acc' else nat_digits f (n / 10) acc'
  end.

(** [String(n)] for an integer [n]. *)
Definition Z_to_string (n : Z) : string :=
  if n <? 0 then "-" ++ nat_digits 64 (- n) ""
  else nat_digits 64 n "".

(** Value of a string of decimal digits. *)
Fixpoint digits_value_aux (acc : Z) (s : string) : Z :=
  match s with
  | EmptyString => acc
  | String c r => digits_value_aux (10 * acc + digit_val c) r
  end.
Definition digits_value (s : string) : Z := digits_value_aux 0 s.

End JS.

(** ** Calendar dates and time values

    A time value of the host is a UTC calendar day and the milliseconds
    elapsed in it (ECMAScript's [Day(t)] and [TimeWithinDay(t)]). *)
Module Cal.

Record civil := mkCivil { cy : Z; cm : Z; cd : Z }.
Record tv := mkTv { tv_day : civil; tv_ms : Z }.

Definition msPerDay : Z := 86400000.

Definition is_leap (y : Z) : bool :=
  (y mod 4 =? 0) && (negb (y mod 100 =? 0) || (y mod 400 =? 0)).

Definition days_in_month (y m : Z) : Z :=
  if (m =? 2) then (if is_leap y then 29 else 28)
  else if (m =? 4) || (m =? 6) || (m =? 9) || (m =? 11) then 30
  else 31.

Definition next_day (c : civil) : civil :=
  let '(mkCivil y m d) := c in
  if d <? days_in_month y m then mkCivil y m (d + 1)
  else if m <? 12 then mkCivil y (m + 1) 1
  else mkCivil (y + 1) 1 1.

Definition prev_day (c : civil) : civil :=
  let '(mkCivil y m d) := c in
  if 1 <? d then mkCivil y m (d - 1)
  else if 1 <? m then mkCivil y (m - 1) (days_in_month y (m - 1))
  else mkCivil (y - 1) 12 31.

Fixpoint iter {A} (n : nat) (f : A -> A) (a : A) : A :=
  match n with O => a | S k => f (iter k f a) end.

Definition add_days (k : Z) (c : civil) : civil :=
  if k <? 0 then iter (Z.to_nat (- k)) prev_day c else iter (Z.to_nat k) next_day c.

(** The time value [t + k] milliseconds. *)
Definition shift_ms (t : tv) (k : Z) : tv :=
  let ms := tv_ms t + k in
  mkTv (add_days (ms / msPerDay) (tv_day t)) (ms mod msPerDay).

Definition valid_civil (c : civil) : bool :=
  (1 <=? cm c) && (cm c <=? 12) && (1 <=? cd c) && (cd c <=? days_in_month (cy c) (cm c)).

End Cal.
Import Cal.

Module Fmt.
Import JS.

Definition two_digits (n : Z) : string :=
  String (digit_char ((n / 10) mod 10)) (String (digit_char (n mod 10)) "").
Definition three_digits (n : Z) : string :=
  String (digit_char ((n / 100) mod 10)) (two_digits n).
Definition four_digits (n : Z) : string :=
  String (digit_char ((n / 1000) mod 10)) (three_digits n).
Definition six_digits (n : Z) : string :=
  String (digit_char ((n / 100000) mod 10))
    (String (digit_char ((n / 10000) mod 10)) (four_digits n)).

(** The year of [Date.prototype.toISOString]: four digits for 0..9999,
    otherwise a sign and six digits. *)
Definition iso_year (y : Z) : string :=
  if (0 <=? y) && (y <=? 9999) then four_digits y
  else (if y <? 0 then "-" else "+") ++ six_digits (Z.abs y).

(** [Date.prototype.toISOString] of a valid time value. *)
Definition toISOString (t : tv) : string :=
  let c := tv_day t in
  let ms := tv_ms t in
  iso_year (cy c) ++ "-" ++ two_digits (cm c) ++ "-" ++ two_digits (cd c)
  ++ "T" ++ two_digits (ms / 3600000) ++ ":" ++ two_digits ((ms / 60000) mod 60)
  ++ ":" ++ two_digits ((ms / 1000) mod 60) ++ "." ++ three_digits (ms mod 1000) ++ "Z".

End Fmt.

(** ** Raw cell values, as [sheet_to_json] hands them to the scripts *)
Inductive cell :=
| CUndef
| CNull
| CBool (b : bool)
| CNum (n : Z)
| CStr (s : string)
| CDate (t : option tv).   (** a [Date] object; [None] is an Invalid Date *)

(** JavaScript truthiness, as used by [!value] and [value || d]. *)
Definition truthy (v : cell) : bool :=
  match v with
  | CUndef | CNull => false
  | CBool b => b
  | CNum n => negb (n =? 0)
  | CStr s => negb (String.eqb s "")
  | CDate _ => true
  end.

(** A computation that returns or throws. *)
Inductive outcome (A : Type) := Ret (a : A) | Throw (e : string).
Arguments Ret {A} a.
Arguments Throw {A} e.

(** ** Date Parser *)
Module DateParse.
Import JS Fmt.

(** The tail [-(\w{3})-(\d{4})] of the day-month-year pattern. *)
Definition dmy_tail (s : string) : option (string * string) :=
  match s with
  | String h1 (String m1 (String m2 (String m3 (String h2
      (String y1 (String y2 (String y3 (String y4 _)))))))) =>
      if Ascii.eqb h1 "-" && is_word m1 && is_word m2 && is_word m3
         && Ascii.eqb h2 "-" && is_digit y1 && is_digit y2 && is_digit y3
         && is_digit y4
      then Some (String m1 (String m2 (String m3 "")),
                 String y1 (String y2 (String y3 (String y4 ""))))
      else None
  | _ => None
  end.

(** [/(\d{1,2})-(\w{3})-(\d{4})/] anchored at the start of [s]: the greedy
    [\d{1,2}] tries two digits first, then one. *)
Definition dmy_at (s : string) : option (string * string * string) :=
  match s with
  | EmptyString => None
  | String a r =>
      if is_digit a then
        let two :=
          match r with
          | String b r' =>
              if is_digit b then
                match dmy_tail r' with
                | Some (m, y) => Some (String a (String b ""), m, y)
                | None => None
                end
              else None
          | EmptyString => None
          end in
        match two with
        | Some g => Some g
        | None =>
            match dmy_tail r with
            | Some (m, y) => Some (String a "", m, y)
            | None => None
            end
        end
      else None
  end.

(** [String.prototype.match] with [/(\d{1,2})-(\w{3})-(\d{4})/]: the
    leftmost match, as its three groups. *)
Fixpoint match_dmy (s : string) : option (string * string * string) :=
  match dmy_at s with
  | Some g => Some g
  | None =>
      match s with
      | EmptyString => None
      | String _ r => match_dmy r
      end
  end.

Definition months : list (string * string) :=
  [("Jan", "01"); ("Feb", "02"); ("Mar", "03"); ("Apr", "04"); ("May", "05");
   ("Jun", "06"); ("Jul", "07"); ("Aug", "08"); ("Sep", "09"); ("Oct", "10");
   ("Nov", "11"); ("Dec", "12")].

Fixpoint lookup (k : string) (tbl : list (string * string)) : option string :=
  match tbl with
  | [] => None
  | (k', v) :: r => if String.eqb k k' then Some v else lookup k r
  end.

(** [`${match[3]}-${months[match[2]] || '01'}-${match[1].padStart(2, '0')}`],
    the same in every variant of [parseDate]. *)
Definition format_dmy (g : string * string * string) : string :=
  let '(d, m, y) := g in
  let month := match lookup m months with Some v => v | None => "01" end in
  y ++ "-" ++ month ++ "-" ++ padStart2 d.

(** The date-only form [YYYY-MM-DD] of the ECMAScript Date Time String
    Format, which [Date.parse] must read as UTC midnight. *)
Definition es_date_only (s : string) : option tv :=
  match s with
  | String y1 (String y2 (String y3 (String y4 (String h1
      (String m1 (String m2 (String h2 (String d1 (String d2 EmptyString))))))))) =>
      if is_digit y1 && is_digit y2 && is_digit y3 && is_digit y4
         && Ascii.eqb h1 "-" && is_digit m1 && is_digit m2 && Ascii.eqb h2 "-"
         && is_digit d1 && is_digit d2
      then
        let c := mkCivil (digits_value (String y1 (String y2 (String y3 (String y4 "")))))
                         (digits_value (String m1 (String m2 "")))
                         (digits_value (String d1 (String d2 ""))) in
        if valid_civil c then Some (mkTv c 0) else None
      else None
  | _ => None
  end.

Definition is_canonical_date (s : string) : bool :=
  match es_date_only s with Some _ => true | None => false end.

Section Host.
  (** The implementation-specific part of [Date.parse]. *)
  Variable legacy_parse : string -> option tv.
  (** [new Date(n)] for a number [n]. *)
  Variable date_of_number : Z -> option tv.
  (** [XLSX.SSF.parse_date_code(n)]: year, month, day, or [null]. *)
  Variable parse_date_code : Z -> option (Z * Z * Z).
  (** The local time zone offset, in milliseconds, at a time value. *)
  Variable local_offset : tv -> Z.
  (** [new Date(y, m - 1, d)]: local midnight of a calendar day. *)
  Variable make_local : civil -> tv.

  (** [new Date(string)] *)
Definition date_parse (s : string) : option tv :=
    match es_date_only s with
    | Some t => Some t
    | None => legacy_parse s
    end.

  (** [new Date(value)] *)
Definition new_Date (v : cell) : option tv :=
    match v with
    | CUndef => None
    | CNull => date_of_number 0
    | CBool b => date_of_number (if b then 1 else 0)
    | CNum n => date_of_number n
    | CStr s => date_parse s
    | CDate t => t
    end.

  (** [String(value)] for the values that reach it: the callers handle a
      [Date] before (or go through [template]), so its case here is never
      used. *)
Definition js_String (v : cell) : string :=
    match v with
    | CUndef => "undefined"
    | CNull => "null"
    | CBool b => if b then "true" else "false"
    | CNum n => Z_to_string n
    | CStr s => s
    | CDate _ => "[Date]"
    end.

  (** [d.toISOString().split('T')[0]], which throws on an Invalid Date. *)
Definition iso_day (t : option tv) : outcome string :=
    match t with
    | Some t => Ret (split_first "T" (toISOString t))
    | None => Throw "RangeError: Invalid time value"
    end.

  (** [parseDate] of [sync-local.js] (lines 52-66), identical to the first
      script of [scripts/sync-issues.js]; [None] is [null]. *)
Definition parseDate_local (value : cell) : outcome (option string) :=
    if negb (truthy value) then Ret None else
    match value with
    | CDate t =>
        match iso_day t with Ret s => Ret (Some s) | Throw e => Throw e end
    | _ =>
        match match_dmy (js_String value) with
        | Some g => Ret (Some (format_dmy g))
        | None =>
            match new_Date value with
            | None => Ret None
            | Some t =>
                match iso_day (Some t) with Ret s => Ret (Some s) | Throw e => Throw e end
            end
        end
    end.

  (** [parseDate] of the dashboard, [src/types.ts] (lines 97-125). *)
Definition parseDate_ts (value : cell) : outcome string :=
    if negb (truthy value) then Ret "" else
    match value with
    | CDate t => iso_day t
    | CNum n =>
        match parse_date_code n with
        | Some (y, m, d) =>
            Ret (Z_to_string y ++ "-" ++ padStart2 (Z_to_string m) ++ "-"
                 ++ padStart2 (Z_to_string d))
        | None => Throw "TypeError: Cannot read properties of null"
        end
    | _ =>
        let str := trim (js_String value) in
        if String.eqb str "" then Ret "" else
        match match_dmy str with
        | Some g => Ret (format_dmy g)
        | None =>
            match date_parse str with
            | Some t => iso_day (Some t)
            | None => Ret str
            end
        end
    end.

  (** The local calendar fields [getFullYear], [getMonth() + 1], [getDate]. *)
Definition local_day (t : tv) : civil := tv_day (shift_ms t (local_offset t)).

  (** [`${y}-${String(m).padStart(2, '0')}-${String(d).padStart(2, '0')}`] *)
Definition local_ymd (c : civil) : string :=
    Z_to_string (cy c) ++ "-" ++ padStart2 (Z_to_string (cm c)) ++ "-"
    ++ padStart2 (Z_to_string (cd c)).

  (** [parseDate] of the project-dates script in [scripts/sync-issues.js]
      (lines 305-334), which formats with the local-time getters. *)
Definition parseDate_issues (value : cell) : outcome (option string) :=
    if negb (truthy value) then Ret None else
    match value with
    | CNum n =>
        Ret (Some (local_ymd (local_day (shift_ms (make_local (mkCivil 1899 12 30))
                                                  (n * msPerDay)))))
    | CDate (Some t) => Ret (Some (local_ymd (local_day t)))
    | CDate None => Ret (Some "NaN-NaN-NaN")
    | _ =>
        match match_dmy (js_String value) with
        | Some g => Ret (Some (format_dmy g))
        | None =>
            match new_Date value with
            | Some t => Ret (Some (local_ymd (local_day t)))
            | None => Ret None
            end
        end
    end.
End Host.

End DateParse.

(** ** Shapes of date text *)
Module Shape.
Import JS.

(** [\d{1,2}] as a whole token. *)
Definition day_token (d : string) : bool :=
  match d with
  | String a EmptyString => is_digit a
  | String a (String b EmptyString) => is_digit a && is_digit b
  | _ => false
  end.

(** [\w{3}] as a whole token. *)
Definition word3 (m : string) : bool :=
  match m with
  | String a (String b (String c EmptyString)) => is_word a && is_word b && is_word c
  | _ => false
  end.

(** [\d{4}] as a whole token. *)
Definition digits4 (y : string) : bool :=
  match y with
  | String a (String b (String c (String d EmptyString))) =>
      is_digit a && is_digit b && is_digit c && is_digit d
  | _ => false
  end.

End Shape.

(** ** The remote tracker, seen through its REST surface

    The server keeps labels and issues; every call is recorded in a trace.
    [srv_fail] lets a call fail with a status and a body (rate limit, server
    error), which the client sees as a non-2xx response. *)
Module Remote.
Import JS.

Record issue := mkIssue { number : Z; title : string; issue_labels : list string }.

(** A label create carries the colour argument of [ensureLabel]: a string
    of a colour table, or [None] when that argument is no string (it is
    [undefined], or a member of [Object.prototype] found under a key the
    table does not own). *)
Inductive request :=
| GetIssuesPage (page : Z)
| GetLabel (name : string)
| PostLabel (name : string) (color : option string)
| PostIssue (title : string) (labels : list string)
| PatchIssue (number : Z) (labels : list string).

Record server := mkServer {
  srv_labels : list string;
  srv_issues : list issue;
  srv_next : Z;
  srv_fail : request -> option (Z * string) }.

Inductive payload := PNull | PIssues (l : list issue) | PIssue (i : issue).

Definition mem (x : string) (l : list string) : bool := existsb (String.eqb x) l.

(** The page [page] (from 1) of [issues?state=all&per_page=100]. *)
Definition page_of (l : list issue) (page : Z) : list issue :=
  firstn 100 (skipn (100 * (Z.to_nat page - 1)) l).

(** A call: status, payload, response text, and the new server. *)
Definition handle (s : server) (r : request) : Z * payload * string * server :=
  match srv_fail s r with
  | Some (code, body) => (code, PNull, body, s)
  | None =>
    match r with
    | GetIssuesPage p => (200, PIssues (page_of (srv_issues s) p), "[...]", s)
    | GetLabel name =>
        if mem name (srv_labels s) then (200, PNull, "{...}", s)
        else (404, PNull, "Not Found", s)
    | PostLabel name _ =>
        if mem name (srv_labels s) then (422, PNull, "Validation Failed", s)
        else (201, PNull, "{...}",
              mkServer (srv_labels s ++ [name]) (srv_issues s) (srv_next s) (srv_fail s))
    | PostIssue t ls =>
        let i := mkIssue (srv_next s) t ls in
        (201, PIssue i, "{...}",
         mkServer (srv_labels s) (srv_issues s ++ [i]) (srv_next s + 1) (srv_fail s))
    | PatchIssue n ls =>
        if existsb (fun i => number i =? n) (srv_issues s) then
          (200, PNull, "{...}",
           mkServer (srv_labels s)
             (map (fun i => if number i =? n then mkIssue n (title i) ls else i) (srv_issues s))
             (srv_next s) (srv_fail s))
        else (404, PNull, "Not Found", s)
    end
  end.

Record state := mkState { st_srv : server; st_trace : list request }.

(** A script step: state passing with exceptions. *)
Definition M (A : Type) : Type := state -> outcome A * state.

Definition ret {A} (a : A) : M A := fun st => (Ret a, st).
Definition bind {A B} (c : M A) (k : A -> M B) : M B :=
  fun st => match c st with
            | (Ret a, st') => k a st'
            | (Throw e, st') => (Throw e, st')
            end.
Definition throw {A} (e : string) : M A := fun st => (Throw e, st).
(** [try { c } catch (e) { h(e) }] *)
Definition catch {A} (c : M A) (h : string -> M A) : M A :=
  fun st => match c st with
            | (Throw e, st') => h e st'
            | r => r
            end.

Notation "x <- c ;; k" := (bind c (fun x => k)) (at level 61, c at next level, right associativity).
Notation "c ;;; k" := (bind c (fun _ => k)) (at level 61, right associativity).

(** Send [r]; a status of 400 or more is thrown with the message built by
    [msg] from the status and the response text. *)
Definition request_with (msg : Z -> string -> string) (r : request) : M payload :=
  fun st =>
    let '(code, p, body, s') := handle (st_srv st) r in
    let st' := mkState s' (st_trace st ++ [r]) in
    if 400 <=? code then (Throw (msg code body), st') else (Ret p, st').

(** [githubRequest] of [sync-local.js] and of the project-dates script. *)
Definition githubRequest_local : request -> M payload :=
  request_with (fun code body => "GitHub API " ++ Z_to_string code ++ ": " ++ body).

(** [githubRequest] of the first script of [scripts/sync-issues.js]. *)
Definition githubRequest_first : request -> M payload :=
  request_with (fun code body => "GitHub API error: " ++ Z_to_string code ++ " - " ++ body).

(** [githubRequest] of the Apps Script ([unnamed/part_000]). *)
Definition githubRequest_apps : request -> M payload :=
  request_with (fun code _ => "GitHub API Error: " ++ Z_to_string code).

(** [ensureLabel] of [sync-local.js] (lines 164-178) and of the
    project-dates script: create only when the lookup error says 404. *)
Definition ensureLabel_local (name : string) (color : option string) : M unit :=
  catch (githubRequest_local (GetLabel name) ;;; ret tt)
        (fun e => if includes e "404"
                  then githubRequest_local (PostLabel name color) ;;; ret tt
                  else ret tt).

(** [ensureLabel] of the Apps Script (lines 293-304). *)
Definition ensureLabel_apps (name : string) (color : option string) : M unit :=
  catch (githubRequest_apps (GetLabel name) ;;; ret tt)
        (fun e => if includes e "404"
                  then githubRequest_apps (PostLabel name color) ;;; ret tt
                  else ret tt).

(** [ensureLabel] of the first script of [scripts/sync-issues.js]
    (lines 135-145): any lookup error leads to a create. *)
Definition ensureLabel_first (name : string) (color : option string) : M unit :=
  catch (githubRequest_first (GetLabel name) ;;; ret tt)
        (fun _ => githubRequest_first (PostLabel name color) ;;; ret tt).

(** The [while (true)] loop of [getExistingIssues]; one page per round. *)
Fixpoint fetch_pages (fuel : nat) (page : Z) (acc : list issue) : M (list issue) :=
  match fuel with
  | O => ret acc
  | S f =>
      batch <- githubRequest_local (GetIssuesPage page) ;;
      match batch with
      | PIssues ((_ :: _) as b) => fetch_pages f (page + 1) (acc ++ b)
      | _ => ret acc
      end
  end.

(** [getExistingIssues]: the loop stops at the first empty page, at the
    latest after one page per issue. *)
Definition getExistingIssues : M (list issue) :=
  fun st => fetch_pages (S (length (srv_issues (st_srv st)))) 1 [] st.

Definition count_posts_label (tr : list request) : nat :=
  length (filter (fun r => match r with PostLabel _ _ => true | _ => false end) tr).

(** A request for a page of the issue list. *)
Definition is_page (q : request) : bool :=
  match q with GetIssuesPage _ => true | _ => false end.

(** The server after a label is created. *)
Definition add_label (s : server) (name : string) : server :=
  mkServer (srv_labels s ++ [name]) (srv_issues s) (srv_next s) (srv_fail s).

(** [c] only sends requests satisfying [P]: whatever its outcome, the
    trace grows by such requests. *)
Definition only {A} (P : request -> bool) (c : M A) : Prop :=
  forall st o st', c st = (o, st') ->
  exists rest, st_trace st' = (st_trace st ++ rest)%list /\ forallb P rest = true.

End Remote.

(** ** Rows and issue titles *)
Module Rows.
Import JS DateParse.

(** A row of [sheet_to_json(sheet)]: header text to cell, in column order. *)
Definition row := list (string * cell).

(** [row[k]]; a missing key is [undefined]. *)
Fixpoint prop (r : row) (k : string) : cell :=
  match r with
  | [] => CUndef
  | (k', v) :: r' => if String.eqb k k' then v else prop r' k
  end.

(** [a || b] *)
Definition or_else (a b : cell) : cell := if truthy a then a else b.

Section Templates.
  (** [Date.prototype.toString] of the host. *)
  Variable date_toString : option tv -> string.

  (** [`${v}`] *)
Definition template (v : cell) : string :=
    match v with
    | CDate t => date_toString t
    | _ => js_String v
    end.

  (** A string method called on [v]: a [TypeError] unless [v] is a string. *)
Definition as_string (v : cell) : outcome string :=
    match v with
    | CStr s => Ret s
    | _ => Throw "TypeError: not a function"
    end.

  (** [createIssueTitle] of [sync-local.js] (lines 182-187); the first
      script of [scripts/sync-issues.js] builds the same title inline. *)
Definition createIssueTitle_local (r : row) : outcome string :=
    let phase := or_else (prop r "Phase") (CStr "") in
    let activity := or_else (prop r "Activity") (CStr "") in
    match as_string phase with
    | Throw e => Throw e
    | Ret p =>
        let head := split_first ":" p in
        let phasePrefix := if String.eqb head "" then "Task" else head in
        Ret ("[" ++ phasePrefix ++ "] " ++ template activity)
    end.

  (** [getField] of the project-dates script: the exact key, else the
      first key equal to [fieldName] after trimming and lower-casing. *)
Definition getField (r : row) (fieldName : string) : cell :=
    match prop r fieldName with
    | CUndef =>
        match find (fun kv => String.eqb (toLowerCase (trim (fst kv))) (toLowerCase fieldName)) r with
        | Some (_, v) => v
        | None => CNull
        end
    | v => v
    end.

Fixpoint skip_spaces (s : string) : string :=
    match s with
    | String c r => if is_space c then skip_spaces r else s
    | EmptyString => EmptyString
    end.

  (** [/Phase\s*(\d)/i] anchored at the start of [s]: the captured digit. *)
Definition phase_at (s : string) : option ascii :=
    match s with
    | String p1 (String p2 (String p3 (String p4 (String p5 r)))) =>
        if String.eqb (toLowerCase (String p1 (String p2 (String p3 (String p4 (String p5 ""))))))
                      "phase"
        then match skip_spaces r with
             | String d _ => if is_digit d then Some d else None
             | EmptyString => None
             end
        else None
    | _ => None
    end.

  (** [text.match(/Phase\s*(\d)/i)]: the leftmost match, as its group. *)
Fixpoint match_phase (s : string) : option ascii :=
    match phase_at s with
    | Some d => Some d
    | None => match s with EmptyString => None | String _ r => match_phase r end
    end.

  (** The activity keywords of [getPhaseFromRow], phase by phase. *)
Definition phase_keywords : list (string * list string) :=
    [("Phase 1", ["Phase 1"; "PT1 Breakdown"; "Evidence Gathering"; "Documentation Analysis";
                  "Third party"]);
     ("Phase 2", ["Phase 2"; "Automation"; "Statement of Conformity"; "Pilot Product"]);
     ("Phase 3", ["Phase 3"; "Internal Audit"; "Process Mandate"]);
     ("Phase 4", ["Phase 4"; "Conformance Delivery"; "Products not covered"]);
     ("Phase 5", ["Phase 5"; "Lifecycle"; "PDS Solution"])].

  (** [getPhaseFromRow] of the project-dates script (lines 657-689). *)
Definition getPhaseFromRow (r : row) : outcome (option string) :=
    match as_string (or_else (getField r "Phase") (CStr "")) with
    | Throw e => Throw e
    | Ret phaseColumn =>
        match match_phase phaseColumn with
        | Some d => Ret (Some ("Phase " ++ String d ""))
        | None =>
            match as_string (or_else (getField r "Activity") (CStr "")) with
            | Throw e => Throw e
            | Ret activity =>
                Ret (option_map fst
                       (find (fun pk => existsb (includes activity) (snd pk)) phase_keywords))
            end
        end
    end.

  (** [createIssueTitle] of the project-dates script (lines 693-701); with
      no phase the title is the activity value itself. *)
Definition createIssueTitle_issues (r : row) : outcome cell :=
    let activity := or_else (getField r "Activity") (CStr "Untitled Task") in
    match getPhaseFromRow r with
    | Throw e => Throw e
    | Ret (Some phase) => Ret (CStr ("[" ++ phase ++ "] " ++ template activity))
    | Ret None => Ret activity
    end.
End Templates.

End Rows.

(** ** The Task Reconciler and the Batch Driver *)
Module Sync.
Import JS DateParse Remote Rows.

Inductive action := Created | Updated.

Definition lift {A} (o : outcome A) : M A := fun st => (o, st).

(** [PHASE_LABELS] and [QUARTER_LABELS] of [sync-local.js], in order. *)
Definition PHASE_LABELS : list (string * string) :=
  [("Phase 1", "0052CC"); ("Phase 2", "5319E7"); ("Phase 3", "0E8A16")].
Definition QUARTER_LABELS : list (string * string) :=
  [("Q4 2025", "FBCA04"); ("Q1 2026", "F9D0C4"); ("Q2 2026", "C5DEF5");
   ("Q3 2026", "BFD4F2"); ("Q4 2026", "D4C5F9")].

(** The colour tables of the project-dates script. *)
Definition PHASE_COLORS : list (string * string) :=
  [("Phase 1", "0052CC"); ("Phase 2", "5319E7"); ("Phase 3", "0E8A16");
   ("Phase 4", "D93F0B"); ("Phase 5", "FF6B6B")].
Definition QUARTER_COLORS : list (string * string) :=
  [("Q1 2025", "FBCA04"); ("Q2 2025", "F9D0C4"); ("Q3 2025", "C5DEF5");
   ("Q4 2025", "BFD4F2"); ("Q1 2026", "D4C5F9"); ("Q2 2026", "FEF2C0");
   ("Q3 2026", "BFDADC"); ("Q4 2026", "C2E0C6"); ("Q1 2027", "E6CCFF");
   ("Q2 2027", "CCFFE6"); ("Q3 2027", "FFCCCC"); ("Q4 2027", "CCE6FF")].
Definition STATUS_COLORS : list (string * string) :=
  [("Started", "0E8A16"); ("Not Started", "E4E669"); ("In Progress", "1D76DB");
   ("Completed", "98FF98"); ("Blocked", "D73A4A")].

(** The properties of [Object.prototype] (Node.js): [obj[key]] finds them
    on an object literal that has no own property [key]. Each is truthy: a
    function, or the prototype object itself for ["__proto__"]. *)
Definition OBJECT_PROTOTYPE_KEYS : list string :=
  ["constructor"; "__defineGetter__"; "__defineSetter__"; "hasOwnProperty";
   "__lookupGetter__"; "__lookupSetter__"; "isPrototypeOf"; "propertyIsEnumerable";
   "toString"; "valueOf"; "__proto__"; "toLocaleString"].

(** What [TABLE[key]] reads on one of the tables above: the table's own
    entry, an inherited member of [Object.prototype], or [undefined]. *)
Inductive entry := Own (v : string) | Inherited | Absent.

Definition js_get (tbl : list (string * string)) (key : string) : entry :=
  match lookup key tbl with
  | Some v => Own v
  | None => if existsb (String.eqb key) OBJECT_PROTOTYPE_KEYS then Inherited else Absent
  end.

Fixpoint span_spaces (s : string) : string * string :=
  match s with
  | String c r =>
      if is_space c then let '(sp, rest) := span_spaces r in (String c sp, rest)
      else (EmptyString, s)
  | EmptyString => (EmptyString, EmptyString)
  end.

(** [/Q\d\s+\d{4}/] anchored at the start of [s]: the matched text. *)
Definition quarter_at (s : string) : option string :=
  match s with
  | String q (String d r) =>
      if Ascii.eqb q "Q" && is_digit d then
        let '(sp, rest) := span_spaces r in
        match sp, rest with
        | String _ _, String y1 (String y2 (String y3 (String y4 _))) =>
            if is_digit y1 && is_digit y2 && is_digit y3 && is_digit y4
            then Some (String q (String d (sp ++ String y1 (String y2 (String y3 (String y4 ""))))))
            else None
        | _, _ => None
        end
      else None
  | _ => None
  end.

(** [text.match(/Q\d\s+\d{4}/)[0]], the leftmost match. *)
Fixpoint match_quarter (s : string) : option string :=
  match quarter_at s with
  | Some m => Some m
  | None => match s with EmptyString => None | String _ r => match_quarter r end
  end.

Section Reconcile.
  Variable date_toString : option tv -> string.
  Variable legacy_parse : string -> option tv.
  Variable date_of_number : Z -> option tv.
  Variable local_offset : tv -> Z.
  Variable make_local : civil -> tv.

  (** [syncRow] of [sync-local.js] (lines 223-268). Of [createIssueBody]
      only the two date parses are kept, the only steps of it that can
      throw; the text of the body is not part of the model. *)
Definition syncRow_local (r : row) (existingIssues : list issue) : M (option action) :=
    if negb (truthy (prop r "Activity")) then ret None else
    t <- lift (createIssueTitle_local date_toString r) ;;
    _ <- lift (parseDate_local legacy_parse date_of_number (prop r "Start Date")) ;;
    _ <- lift (parseDate_local legacy_parse date_of_number (prop r "End Date")) ;;
    phase <- lift (as_string (or_else (prop r "Phase") (CStr ""))) ;;
    l1 <- match find (fun kv => includes phase (fst kv)) PHASE_LABELS with
          | Some (key, color) => ensureLabel_local key (Some color) ;;; ret [key]
          | None => ret []
          end ;;
    let quarter := prop r "Quarter" in
    (* [QUARTER_LABELS[quarter].color] is [undefined] on an inherited
       member of [Object.prototype]. *)
    l2 <- (if truthy quarter then
             let q := template date_toString quarter in
             match js_get QUARTER_LABELS q with
             | Own color => ensureLabel_local q (Some color) ;;; ret [q]
             | Inherited => ensureLabel_local q None ;;; ret [q]
             | Absent => ret []
             end
           else ret []) ;;
    let labels := app l1 l2 in
    match find (fun i => String.eqb (title i) t) existingIssues with
    | Some existing =>
        githubRequest_local (PatchIssue (number existing) labels) ;;; ret (Some Updated)
    | None =>
        githubRequest_local (PostIssue t labels) ;;; ret (Some Created)
    end.

  (** The loop of [main] in [sync-local.js] (lines 298-312), on the rows of
      the sheet and the issue list fetched before it; it returns the
      created, updated and skipped counts. *)
Fixpoint sync_rows_local (rows : list row) (existingIssues : list issue)
      (created updated skipped : Z) : M (Z * Z * Z) :=
    match rows with
    | [] => ret (created, updated, skipped)
    | r :: rs =>
        if negb (truthy (prop r "Activity")) then
          sync_rows_local rs existingIssues created updated (skipped + 1)
        else
          result <- syncRow_local r existingIssues ;;
          match result with
          | Some Created => sync_rows_local rs existingIssues (created + 1) updated skipped
          | Some Updated => sync_rows_local rs existingIssues created (updated + 1) skipped
          | None => sync_rows_local rs existingIssues created updated skipped
          end
    end.

  (** [main] of [sync-local.js], from the fetched rows on. *)
Definition main_local (rows : list row) : M (Z * Z * Z) :=
    existingIssues <- getExistingIssues ;;
    sync_rows_local rows existingIssues 0 0 0.

  (** The title [createIssueTitle] gives to row [r] is the title of an issue
      of [existingIssues]. *)
Definition title_known (existingIssues : list issue) (r : row) : bool :=
    match createIssueTitle_local date_toString r with
    | Ret t => existsb (fun i => String.eqb (title i) t) existingIssues
    | Throw _ => false
    end.

  (** The labels of [syncRow] in the project-dates script (lines 781-810). *)
Definition labels_issues (r : row) : M (list string) :=
    phase <- lift (getPhaseFromRow r) ;;
    l1 <- match phase with
          | Some ph =>
              match js_get PHASE_COLORS ph with
              | Own color => ensureLabel_local ph (Some color) ;;; ret [ph]
              | Inherited => ensureLabel_local ph None ;;; ret [ph]
              | Absent => ret []
              end
          | None => ret []
          end ;;
    let quarter := getField r "Quarter" in
    l2 <- (if truthy quarter then
             q <- lift (as_string quarter) ;;
             let fallback :=
               match js_get QUARTER_COLORS q with
               | Own color => ensureLabel_local q (Some color) ;;; ret [q]
               | Inherited => ensureLabel_local q None ;;; ret [q]
               | Absent => ret []
               end in
             match match_quarter q with
             | Some m =>
                 match js_get QUARTER_COLORS m with
                 | Own color => ensureLabel_local m (Some color) ;;; ret [m]
                 | Inherited => ensureLabel_local m None ;;; ret [m]
                 | Absent => fallback
                 end
             | None => fallback
             end
           else ret []) ;;
    let status := getField r "Status" in
    l3 <- (if truthy status then
             let st_ := template date_toString status in
             match js_get STATUS_COLORS st_ with
             | Own color => ensureLabel_local st_ (Some color) ;;; ret [st_]
             | Inherited => ensureLabel_local st_ None ;;; ret [st_]
             | Absent => ret []
             end
           else ret []) ;;
    ret (app l1 (app l2 l3)).

  (** The match of [syncRow] in the project-dates script (lines 819-821):
      [i.title.includes(activity) || i.title === title]. *)
Definition same_task (activity title_ : cell) (i : issue) : bool :=
    includes (title i) (template date_toString activity)
    || match title_ with CStr t => String.eqb (title i) t | _ => false end.

  (** [syncRow] of the project-dates script (lines 774-837): the action and
      the issue number. As in [syncRow_local], [createIssueBody] is kept
      only through its date parses; its other steps cannot throw once the
      title is built. *)
Definition syncRow_issues (r : row) (existingIssues : list issue)
      : M (option (action * Z)) :=
    let activity := getField r "Activity" in
    if negb (truthy activity) then ret None else
    t <- lift (createIssueTitle_issues date_toString r) ;;
    _ <- lift (parseDate_issues legacy_parse date_of_number local_offset make_local
                 (getField r "Start Date")) ;;
    _ <- lift (parseDate_issues legacy_parse date_of_number local_offset make_local
                 (getField r "End Date")) ;;
    labels <- labels_issues r ;;
    match find (same_task activity t) existingIssues with
    | Some existing =>
        githubRequest_local (PatchIssue (number existing) labels) ;;;
        ret (Some (Updated, number existing))
    | None =>
        p <- githubRequest_local (PostIssue (template date_toString t) labels) ;;
        match p with
        | PIssue i => ret (Some (Created, number i))
        | _ => throw "TypeError: Cannot read properties of null"
        end
    end.
End Reconcile.

End Sync.

(** ** The Schedule Field Updater *)
Module Board.
Import JS.

(** The date values of the project board, by item and field, and the
    [updateProjectV2ItemFieldValue] mutations sent so far. The GraphQL
    requests are taken to succeed. *)
Record board := mkBoard {
  bd_values : string -> string -> option string;
  bd_writes : list (string * string * string) }.

(** One [updateProjectV2ItemFieldValue] mutation. *)
Definition set_field (b : board) (itemId fieldId v : string) : board :=
  mkBoard (fun i f => if String.eqb i itemId && String.eqb f fieldId then Some v
                      else bd_values b i f)
          (bd_writes b ++ [(itemId, fieldId, v)])%list.

(** Truthiness of a parsed date: a string or [null]. *)
Definition date_truthy (d : option string) : bool :=
  match d with Some v => negb (String.eqb v "") | None => false end.

(** [updateProjectItemDate] of the project-dates script (lines 582-605). *)
Definition updateProjectItemDate (itemId fieldId : string) (dateValue : option string)
    (b : board) : board :=
  match dateValue with
  | Some v => if String.eqb v "" then b else set_field b itemId fieldId v
  | None => b
  end.

(** The date step of [main] in the project-dates script (lines 925-932),
    once the project item of the issue is known. *)
Definition set_item_dates (itemId startFieldId endFieldId : string)
    (startDate endDate : option string) (b : board) : board :=
  let b1 := if date_truthy startDate
            then updateProjectItemDate itemId startFieldId startDate b else b in
  if date_truthy endDate then updateProjectItemDate itemId endFieldId endDate b1 else b1.

(** The writes of [updateProjectDates] in the Apps Script (lines 489-559),
    after the project, its fields and its items have been read:
    [projectItem], [startDateField] and [endDateField] are the ids found,
    if any. *)
Definition updateProjectDates_apps (projectItem startDateField endDateField : option string)
    (startDate endDate : string) (b : board) : board :=
  match projectItem with
  | None => b
  | Some itemId =>
      let b1 := match startDateField with
                | Some f => if String.eqb startDate "" then b else set_field b itemId f startDate
                | None => b
                end in
      match endDateField with
      | Some f => if String.eqb endDate "" then b1 else set_field b1 itemId f endDate
      | None => b1
      end
  end.

End Board.

(** ** The dashboard loader *)
Module Dashboard.
Import JS Fmt DateParse Rows.

Inductive TaskStatus := not_started | in_progress | completed | blocked.

Definition TaskStatus_eqb (a b : TaskStatus) : bool :=
  match a, b with
  | not_started, not_started | in_progress, in_progress
  | completed, completed | blocked, blocked => true
  | _, _ => false
  end.

(** Days from 1970-01-01 to a calendar day (proleptic Gregorian). *)
Definition days_from_civil (c : civil) : Z :=
  let y := if cm c <=? 2 then cy c - 1 else cy c in
  let era := y / 400 in
  let yoe := y - era * 400 in
  let mp := (cm c + 9) mod 12 in
  let doy := (153 * mp + 2) / 5 + cd c - 1 in
  let doe := yoe * 365 + yoe / 4 - yoe / 100 + doy in
  era * 146097 + doe - 719468.

(** [getTime()] of a valid date. *)
Definition tv_time (t : tv) : Z := days_from_civil (tv_day t) * msPerDay + tv_ms t.

(** Insertion into a list sorted by [Array.prototype.sort]'s default order
    (code units; the strings here are ASCII). *)
Fixpoint insert_sorted (x : string) (l : list string) : list string :=
  match l with
  | [] => [x]
  | y :: l' => match String.compare x y with
               | Lt => x :: l
               | _ => y :: insert_sorted x l'
               end
  end.

Definition sort (l : list string) : list string := fold_right insert_sorted [] l.

(** The [i]-th element of an array; a missing one reads [undefined]. *)
Definition at_index (r : list cell) (i : Z) : cell := nth (Z.to_nat i) r CUndef.

(** The index of the first element that satisfies [f]: the scan of
    [findCol] on a header row without holes. *)
Fixpoint find_index {A} (f : A -> bool) (l : list A) : option nat :=
  match l with
  | [] => None
  | x :: l' => if f x then Some O else option_map S (find_index f l')
  end.

Section Loader.
  (** [Date.prototype.toString] of the host. *)
  Variable date_toString : option tv -> string.
  Variable legacy_parse : string -> option tv.
  Variable parse_date_code : Z -> option (Z * Z * Z).
  (** JavaScript numbers (binary64) and the operations the loader uses. *)
  Context {F : Type}.
  Variable F_of_Z : Z -> F.
  Variable F_nan : F.
  Variables F_add F_sub F_mul F_div : F -> F -> F.
  (** [Math.round] *)
  Variable F_round : F -> F.
  (** [new Date()] when the data is loaded. *)
  Variable now : tv.
  (** [today.setHours(0, 0, 0, 0)]: local midnight of that day, a time value. *)
  Variable local_midnight : Z.

Record Task := mkTask {
    id : string; phase : string; activity : string; taskDetail : string;
    principle : string; deliverable : string; owner : string; quarter : string;
    startDate : string; endDate : string; status : TaskStatus; progress : F }.

Record Phase := mkPhase {
    ph_name : string; ph_tasks : list Task; ph_progress : F;
    ph_startDate : string; ph_endDate : string }.

Record Stats := mkStats {
    total : Z; completed_n : Z; inProgress_n : Z; notStarted_n : Z; overdue : Z }.

Record ProjectData := mkProjectData {
    pd_name : string; pd_tasks : list Task; pd_phases : list Phase;
    lastUpdated : string; stats : Stats; overallProgress : F }.

  (** [new Date(s).getTime()]; [None] is [NaN]. *)
Definition time_of (s : string) : option Z := option_map tv_time (date_parse legacy_parse s).

  (** [getTime()] as a number. *)
Definition time_num (t : option Z) : F :=
    match t with Some z => F_of_Z z | None => F_nan end.

  (** [determineStatus] (lines 127-139). A [Date] object is truthy even
      when invalid; a comparison with [NaN] is false. *)
Definition determineStatus (sd ed : string) : TaskStatus :=
    if String.eqb sd "" && String.eqb ed "" then not_started else
    let today := local_midnight in
    let end_ := if String.eqb ed "" then None else Some (time_of ed) in
    let start := if String.eqb sd "" then None else Some (time_of sd) in
    match end_ with
    | Some (Some e) => if e <? today then completed else
        match start with
        | Some (Some s) => if s <=? today then in_progress else not_started
        | _ => not_started
        end
    | _ =>
        match start with
        | Some (Some s) => if s <=? today then in_progress else not_started
        | _ => not_started
        end
    end.

  (** [calculateProgress] (lines 141-155). *)
Definition calculateProgress (sd ed : string) : F :=
    if String.eqb sd "" || String.eqb ed "" then F_of_Z 0 else
    let today := tv_time now in
    let start := time_of sd in
    let end_ := time_of ed in
    if match end_ with Some e => e <=? today | None => false end then F_of_Z 100 else
    if match start with Some s => today <=? s | None => false end then F_of_Z 0 else
    let total_ := F_sub (time_num end_) (time_num start) in
    let elapsed := F_sub (F_of_Z today) (time_num start) in
    F_round (F_mul (F_div elapsed total_) (F_of_Z 100)).

  (** [lower[i].includes(...)] on a hole of the header array. *)
Definition hole_error : string :=
    "TypeError: Cannot read properties of undefined (reading 'includes')".

  (** The inner loop of [findCol] for the keyword [kw], from index [i]: the
      first index whose header contains [kw]; reaching a hole ([None])
      throws. *)
Fixpoint scan_col (kw : string) (i : nat) (lower : list (option string))
      : outcome (option nat) :=
    match lower with
    | [] => Ret None
    | None :: _ => Throw hole_error
    | Some l :: rest => if includes l (toLowerCase kw) then Ret (Some i) else scan_col kw (S i) rest
    end.

  (** [findCol] (lines 157-165); [-1] when no header matches. [headers] may
      have holes ([None]): [headers.map(...)] skips them and keeps them. *)
Definition findCol (headers : list (option string)) (keywords : list string) : outcome Z :=
    let lower := map (option_map (fun h => trim (toLowerCase h))) headers in
    let fix go (kws : list string) : outcome Z :=
      match kws with
      | [] => Ret (-1)
      | kw :: kws' =>
          match scan_col kw 0 lower with
          | Throw e => Throw e
          | Ret (Some i) => Ret (Z.of_nat i)
          | Ret None => go kws'
          end
      end in
    go keywords.

Record Cols := mkCols {
    c_phase : Z; c_activity : Z; c_taskDetail : Z; c_principle : Z;
    c_deliverable : Z; c_owner : Z; c_quarter : Z; c_startDate : Z; c_endDate : Z }.

Definition obind {A B} (o : outcome A) (k : A -> outcome B) : outcome B :=
    match o with Ret a => k a | Throw e => Throw e end.

  (** The column lookup of [fetchProjectData] (lines 197-207), in the order
      of the object literal. *)
Definition find_cols (headers : list (option string)) : outcome Cols :=
    obind (findCol headers ["phase"]) (fun ph =>
    obind (findCol headers ["activity"]) (fun ac =>
    obind (findCol headers ["task detail"]) (fun td =>
    obind (findCol headers ["pt1 principle"; "principle"]) (fun pr =>
    obind (findCol headers ["deliverable"]) (fun de =>
    obind (findCol headers ["owner"]) (fun ow =>
    obind (findCol headers ["quarter"]) (fun qu =>
    obind (findCol headers ["start date"; "start"]) (fun sd =>
    obind (findCol headers ["end date"; "end"]) (fun ed =>
    Ret (mkCols ph ac td pr de ow qu sd ed)))))))))).

  (** One element of [headers] (line 194): [String(h || '')]. A blank cell
      of the header row is a hole of the sparse array [sheet_to_json] gives
      (read here as [CUndef]); [map] skips it and keeps the hole ([None]). *)
Definition header_text (h : cell) : option string :=
    match h with
    | CUndef => None
    | _ => Some (template date_toString (or_else h (CStr "")))
    end.

  (** [cols.x >= 0 ? String(row[cols.x] || '').trim() : ''] *)
Definition text_at (r : list cell) (c : Z) : string :=
    if 0 <=? c then trim (template date_toString (or_else (at_index r c) (CStr ""))) else "".

  (** [cols.x >= 0 ? parseDate(row[cols.x]) : ''] *)
Definition date_at (r : list cell) (c : Z) : outcome string :=
    if 0 <=? c then parseDate_ts legacy_parse parse_date_code (at_index r c) else Ret "".

  (** The body of the row loop (lines 213-236): the task of row [i], or
      [None] when the row is skipped. *)
Definition row_task (cols : Cols) (i : nat) (r : list cell) : outcome (option Task) :=
    match r with
    | [] => Ret None
    | _ =>
      let activity_ := text_at r (c_activity cols) in
      if String.eqb activity_ "" then Ret None else
      match date_at r (c_startDate cols) with
      | Throw e => Throw e
      | Ret sd =>
        match date_at r (c_endDate cols) with
        | Throw e => Throw e
        | Ret ed =>
            Ret (Some (mkTask ("task-" ++ Z_to_string (Z.of_nat i))
                        (text_at r (c_phase cols)) activity_
                        (text_at r (c_taskDetail cols)) (text_at r (c_principle cols))
                        (text_at r (c_deliverable cols)) (text_at r (c_owner cols))
                        (text_at r (c_quarter cols)) sd ed
                        (determineStatus sd ed) (calculateProgress sd ed)))
        end
      end
    end.

  (** [phaseMap.get(phase).push(task)], creating the entry if needed; the
      map keeps the order in which the phases first appear. *)
Fixpoint add_to_phase (pm : list (string * list Task)) (t : Task) : list (string * list Task) :=
    match pm with
    | [] => [(phase t, [t])]
    | (n, ts) :: pm' => if String.eqb n (phase t) then (n, (ts ++ [t])%list) :: pm'
                        else (n, ts) :: add_to_phase pm' t
    end.

  (** The row loop (lines 212-244), from row [i] on. *)
Fixpoint collect (cols : Cols) (i : nat) (rows : list (list cell))
      (tasks : list Task) (pm : list (string * list Task))
      : outcome (list Task * list (string * list Task)) :=
    match rows with
    | [] => Ret (tasks, pm)
    | r :: rs =>
        match row_task cols i r with
        | Throw e => Throw e
        | Ret None => collect cols (S i) rs tasks pm
        | Ret (Some t) =>
            collect cols (S i) rs (tasks ++ [t])%list
              (if String.eqb (phase t) "" then pm else add_to_phase pm t)
        end
    end.

Definition sum_progress (ts : list Task) : F :=
    fold_left (fun s t => F_add s (progress t)) ts (F_of_Z 0).

  (** One entry of [phases] (lines 248-260). *)
Definition build_phase (e : string * list Task) : Phase :=
    let '(n, ts) := e in
    let starts := map startDate (filter (fun t => negb (String.eqb (startDate t) "")) ts) in
    let ends := map endDate (filter (fun t => negb (String.eqb (endDate t) "")) ts) in
    let avgProgress := F_div (sum_progress ts) (F_of_Z (Z.of_nat (length ts))) in
    mkPhase n ts (F_round avgProgress)
      (match sort starts with x :: _ => x | [] => "" end)
      (match rev (sort ends) with x :: _ => x | [] => "" end).

Definition count (p : Task -> bool) (ts : list Task) : Z := Z.of_nat (length (filter p ts)).

  (** The result of [fetchProjectData] once the tasks are collected
      (lines 247-283). *)
Definition finish (tasks : list Task) (pm : list (string * list Task)) : ProjectData :=
    let phases := map build_phase pm in
    let today := split_first "T" (toISOString now) in
    let stats_ := mkStats (Z.of_nat (length tasks))
      (count (fun t => TaskStatus_eqb (status t) completed) tasks)
      (count (fun t => TaskStatus_eqb (status t) in_progress) tasks)
      (count (fun t => TaskStatus_eqb (status t) not_started) tasks)
      (count (fun t => negb (TaskStatus_eqb (status t) completed)
                       && negb (String.eqb (endDate t) "")
                       && String.ltb (endDate t) today) tasks) in
    let overall := match tasks with
                   | [] => F_of_Z 0
                   | _ => F_round (F_div (sum_progress tasks) (F_of_Z (Z.of_nat (length tasks))))
                   end in
    mkProjectData "PSC Conformance Delivery Process Plan" tasks phases
      (toISOString now) stats_ overall.

  (** [fetchProjectData] from the rows of [sheet_to_json(sheet, {header: 1})]
      on (lines 189-286): an error text ([inl]) or the data ([inr]); a thrown
      error goes to the proxy loop, which tries the next proxy. *)
Definition load_rows (rows : list (list cell)) : outcome (string + ProjectData) :=
    match rows with
    | [] | [_] => Ret (inl "No data rows found")
    | header :: body =>
        let headers := map header_text header in
        match find_cols headers with
        | Throw e => Throw e
        | Ret cols =>
            match collect cols 1 body [] [] with
            | Throw e => Throw e
            | Ret (tasks, pm) => Ret (inr (finish tasks pm))
            end
        end
    end.
End Loader.

(** Two rows of a sheet that agree on every column but [k]. *)
Definition agree_off (k : nat) (r1 r2 : list cell) : Prop :=
  forall i, i <> k -> nth i r1 CUndef = nth i r2 CUndef.

(** No column the loader reads is column [k]. *)
Definition cols_off (k : nat) (cols : Cols) : Prop :=
  Forall (fun c => c <> Z.of_nat k)
    [c_phase cols; c_activity cols; c_taskDetail cols; c_principle cols;
     c_deliverable cols; c_owner cols; c_quarter cols; c_startDate cols; c_endDate cols].

End Dashboard.

(** ** The sheet id of a link ([src/types.ts]) *)
Module SheetId.
Import JS.

(** [[a-zA-Z0-9-_]] *)
Definition is_id_char (c : ascii) : bool := is_word c || Ascii.eqb c "-".

(** The greedy run [([a-zA-Z0-9-_]+)] at the start of [s] (possibly empty). *)
Fixpoint span_id (s : string) : string :=
  match s with
  | String c r => if is_id_char c then String c (span_id r) else EmptyString
  | EmptyString => EmptyString
  end.

(** [s] with its first [length p] characters removed. *)
Fixpoint after_prefix (p s : string) : string :=
  match p, s with
  | String _ p', String _ s' => after_prefix p' s'
  | _, _ => s
  end.

(** [/\/spreadsheets\/d\/([a-zA-Z0-9-_]+)/] anchored at the start of [s]:
    the captured group. *)
Definition sheet_at (s : string) : option string :=
  if prefixb "/spreadsheets/d/" s then
    match span_id (after_prefix "/spreadsheets/d/" s) with
    | EmptyString => None
    | id => Some id
    end
  else None.

(** [s.match(...)?.[1]]: the capture of the leftmost match. *)
Fixpoint match_sheet (s : string) : option string :=
  match sheet_at s with
  | Some id => Some id
  | None => match s with EmptyString => None | String _ r => match_sheet r end
  end.

(** [extractSheetId] of [src/types.ts] (lines 89-95); [None] is [null]. *)
Definition extractSheetId (input : string) : option string :=
  if negb (includes input "/") && (20 <? Z.of_nat (String.length input)) then Some (trim input)
  else match_sheet input.

End SheetId.

(** ** Dates shown in an issue body ([scripts/sync-issues.js]) *)
Module DateDisplay.
Import JS.

(** [s.split(sep)] for a one-character separator. *)
Fixpoint split_all (sep : ascii) (s : string) : list string :=
  match s with
  | EmptyString => [EmptyString]
  | String c r =>
      if Ascii.eqb c sep then EmptyString :: split_all sep r
      else match split_all sep r with
           | w :: ws => String c w :: ws
           | [] => [String c EmptyString]
           end
  end.

Definition hex_val (c : ascii) : option Z :=
  let n := Z.of_nat (nat_of_ascii c) in
  if (48 <=? n) && (n <=? 57) then Some (n - 48)
  else if (97 <=? n) && (n <=? 102) then Some (n - 87)
  else if (65 <=? n) && (n <=? 70) then Some (n - 55)
  else None.

(** The digits of radix [radix] at the start of [s]: their count and value. *)
Fixpoint digits_prefix (radix : Z) (s : string) (n : nat) (acc : Z) : nat * Z :=
  match s with
  | String c r =>
      match hex_val c with
      | Some v => if v <? radix then digits_prefix radix r (S n) (radix * acc + v) else (n, acc)
      | None => (n, acc)
      end
  | EmptyString => (n, acc)
  end.

(** [parseInt(s)] with no radix, on an integer result; [None] is [NaN]. *)
Definition parseInt (s : string) : option Z :=
  let s1 := trim_start s in
  let '(sign, s2) := match s1 with
                     | String "-" r => (-1, r)
                     | String "+" r => (1, r)
                     | _ => (1, s1)
                     end in
  let '(radix, s3) := match s2 with
                      | String "0" (String x r) =>
                          if Ascii.eqb x "x" || Ascii.eqb x "X" then (16, r) else (10, s2)
                      | _ => (10, s2)
                      end in
  let '(n, v) := digits_prefix radix s3 O 0 in
  match n with O => None | _ => Some (sign * v) end.

Definition month_names : list string :=
  ["Jan"; "Feb"; "Mar"; "Apr"; "May"; "Jun"; "Jul"; "Aug"; "Sep"; "Oct"; "Nov"; "Dec"].

(** [`${x}`] of an array element that may be missing. *)
Definition part (o : option string) : string :=
  match o with Some s => s | None => "undefined" end.

(** [formatDateDisplay] of the project-dates script in
    [scripts/sync-issues.js] (lines 337-342), on what [parseDate] returns
    ([None] is [null]). *)
Definition formatDateDisplay (isoDate : option string) : string :=
  match isoDate with
  | None => "TBD"
  | Some d =>
      if String.eqb d "" then "TBD" else
      let parts := split_all "-" d in
      let month :=
        match nth_error parts 1 with
        | Some m =>
            match parseInt m with
            | Some k => if (1 <=? k) && (k <=? 12) then nth_error month_names (Z.to_nat (k - 1))
                        else None
            | None => None
            end
        | None => None
        end in
      part (nth_error parts 2) ++ "-" ++ part month ++ "-" ++ part (nth_error parts 0)
  end.

End DateDisplay.

(** * Proofs *)

(** ** Character and string facts *)
Module Facts.
Import JS Fmt DateParse.

Lemma digit_val_range c : is_digit c = true -> 0 <= digit_val c <= 9.
Proof.
  unfold is_digit, digit_val. intros H.
  apply andb_prop in H as [H1 H2].
  apply Nat.leb_le in H1. apply Nat.leb_le in H2. lia.
Qed.

Lemma digit_char_val c : is_digit c = true -> digit_char (digit_val c) = c.
Proof.
  unfold is_digit, digit_val, digit_char. intros H.
  apply andb_prop in H as [H1 H2].
  apply Nat.leb_le in H1. apply Nat.leb_le in H2.
  replace (48 + Z.to_nat (Z.of_nat (nat_of_ascii c) - 48))%nat with (nat_of_ascii c) by lia.
  apply ascii_nat_embedding.
Qed.

Lemma digit_ne c d : is_digit c = true -> is_digit d = false -> Ascii.eqb c d = false.
Proof.
  intros Hc Hd. destruct (Ascii.eqb c d) eqn:E; [|reflexivity].
  apply Ascii.eqb_eq in E. subst. congruence.
Qed.

Lemma digit_word c : is_digit c = true -> is_word c = true.
Proof. unfold is_word. intros ->. reflexivity. Qed.

Lemma digit_not_space c : is_digit c = true -> is_space c = false.
Proof.
  unfold is_digit, is_space. intros H.
  apply andb_prop in H as [H1 H2].
  apply Nat.leb_le in H1. apply Nat.leb_le in H2.
  apply orb_false_iff. split.
  - apply Nat.eqb_neq. lia.
  - apply andb_false_iff. right. apply Nat.leb_gt. lia.
Qed.

(** Reading a string of digits and printing it back. *)
Lemma two_digits_value a b :
  is_digit a = true -> is_digit b = true ->
  two_digits (digits_value (String a (String b ""))) = String a (String b "").
Proof.
  intros Ha Hb. pose proof (digit_val_range a Ha). pose proof (digit_val_range b Hb).
  unfold two_digits, digits_value. cbn [digits_value_aux].
  replace (((10 * (10 * 0 + digit_val a) + digit_val b) / 10) mod 10) with (digit_val a)
    by (Z.div_mod_to_equations; nia).
  replace ((10 * (10 * 0 + digit_val a) + digit_val b) mod 10) with (digit_val b)
    by (Z.div_mod_to_equations; nia).
  rewrite !digit_char_val by assumption. reflexivity.
Qed.

Lemma four_digits_value a b c d :
  is_digit a = true -> is_digit b = true -> is_digit c = true -> is_digit d = true ->
  four_digits (digits_value (String a (String b (String c (String d "")))))
  = String a (String b (String c (String d ""))).
Proof.
  intros Ha Hb Hc Hd.
  pose proof (digit_val_range a Ha). pose proof (digit_val_range b Hb).
  pose proof (digit_val_range c Hc). pose proof (digit_val_range d Hd).
  unfold four_digits, three_digits, two_digits, digits_value. cbn [digits_value_aux].
  set (n := 10 * (10 * (10 * (10 * 0 + digit_val a) + digit_val b) + digit_val c) + digit_val d).
  replace ((n / 1000) mod 10) with (digit_val a) by (subst n; Z.div_mod_to_equations; nia).
  replace ((n / 100) mod 10) with (digit_val b) by (subst n; Z.div_mod_to_equations; nia).
  replace ((n / 10) mod 10) with (digit_val c) by (subst n; Z.div_mod_to_equations; nia).
  replace (n mod 10) with (digit_val d) by (subst n; Z.div_mod_to_equations; nia).
  rewrite !digit_char_val by assumption. reflexivity.
Qed.

Lemma four_digits_range a b c d :
  is_digit a = true -> is_digit b = true -> is_digit c = true -> is_digit d = true ->
  0 <= digits_value (String a (String b (String c (String d "")))) <= 9999.
Proof.
  intros Ha Hb Hc Hd.
  pose proof (digit_val_range a Ha). pose proof (digit_val_range b Hb).
  pose proof (digit_val_range c Hc). pose proof (digit_val_range d Hd).
  unfold digits_value. cbn [digits_value_aux]. lia.
Qed.

(** A string none of whose characters satisfies [p]. *)
Fixpoint none_of (p : ascii -> bool) (s : string) : bool :=
  match s with
  | EmptyString => true
  | String c r => negb (p c) && none_of p r
  end.

Lemma split_first_app sep a b :
  none_of (fun c => Ascii.eqb c sep) a = true ->
  split_first sep (a ++ String sep b) = a.
Proof.
  induction a as [|c r IH]; simpl; intros H.
  - rewrite Ascii.eqb_refl. reflexivity.
  - apply andb_prop in H as [H1 H2]. apply negb_true_iff in H1.
    rewrite H1, IH by assumption. reflexivity.
Qed.

Lemma trim_start_id s :
  match s with EmptyString => True | String c _ => is_space c = false end ->
  trim_start s = s.
Proof. destruct s as [|c r]; simpl; [reflexivity|]. intros ->. reflexivity. Qed.

Lemma rev_string_involutive s : rev_string (rev_string s) = s.
Proof.
  unfold rev_string. rewrite list_ascii_of_string_of_list_ascii, rev_involutive.
  apply string_of_list_ascii_of_string.
Qed.

Lemma none_of_rev p s : none_of p (rev_string s) = none_of p s.
Proof.
  assert (Hl : forall l, none_of p (string_of_list_ascii l) = forallb (fun c => negb (p c)) l).
  { induction l as [|c l IH]; simpl; [reflexivity|]. rewrite IH. reflexivity. }
  assert (Hr : forall l : list ascii,
            forallb (fun c => negb (p c)) (rev l) = forallb (fun c => negb (p c)) l).
  { induction l as [|c l IH]; simpl; [reflexivity|].
    rewrite forallb_app, IH. simpl. rewrite andb_true_r, andb_comm. reflexivity. }
  unfold rev_string. rewrite Hl, Hr, <- Hl, string_of_list_ascii_of_string.
  reflexivity.
Qed.

Lemma trim_start_none s : none_of is_space s = true -> trim_start s = s.
Proof.
  intros H. apply trim_start_id. destruct s as [|c r]; [exact I|].
  simpl in H. apply andb_prop in H as [H _]. apply negb_true_iff. exact H.
Qed.

(** [trim] leaves a string with no white space unchanged. *)
Lemma trim_none s : none_of is_space s = true -> trim s = s.
Proof.
  intros H. unfold trim. rewrite (trim_start_none s H).
  rewrite trim_start_none by (rewrite none_of_rev; exact H).
  apply rev_string_involutive.
Qed.

Ltac nat_cmp :=
  repeat match goal with
  | |- context [(?a <=? ?b)%nat] => destruct (Nat.leb_spec a b)
  | |- context [(?a =? ?b)%nat] => destruct (Nat.eqb_spec a b)
  | H : context [(?a <=? ?b)%nat] |- _ => destruct (Nat.leb_spec a b)
  | H : context [(?a =? ?b)%nat] |- _ => destruct (Nat.eqb_spec a b)
  end; simpl in *; try discriminate; try reflexivity; try lia.

Lemma word_not_space c : is_word c = true -> is_space c = false.
Proof. unfold is_word, is_digit, is_space. nat_cmp. Qed.

Lemma word_not_dash c : is_word c = true -> Ascii.eqb c "-" = false.
Proof.
  intros H. destruct (Ascii.eqb c "-") eqn:E; [|reflexivity].
  apply Ascii.eqb_eq in E. subst. discriminate.
Qed.

Lemma dash_not_word : is_word "-" = false.
Proof. reflexivity. Qed.
Lemma dash_not_digit : is_digit "-" = false.
Proof. reflexivity. Qed.
Lemma dash_dash : Ascii.eqb "-" "-" = true.
Proof. reflexivity. Qed.

End Facts.

(** ** The day-month-year branch of the Date Parser *)
Module DmyProofs.
Import JS Fmt DateParse Shape Facts.

Ltac split_bools :=
  repeat match goal with
  | H : (_ && _)%bool = true |- _ => apply andb_prop in H as [? ?]
  end.

Ltac crunch :=
  repeat (first
    [ progress cbn -[is_digit is_word Ascii.eqb]
    | match goal with
      | H : ?x = _ |- context [?x] => rewrite H
      | |- context [Ascii.eqb "-" "-"] => rewrite dash_dash
      | |- context [is_word "-"] => rewrite dash_not_word
      | |- context [is_digit "-"] => rewrite dash_not_digit
      end ]).

(** The regular expression finds a whole [D-Mon-YYYY] token at position 0. *)
Lemma match_dmy_token d m y :
  day_token d = true -> word3 m = true -> digits4 y = true ->
  match_dmy (d ++ "-" ++ m ++ "-" ++ y) = Some (d, m, y).
Proof.
  intros Hd Hm Hy.
  destruct m as [|m1 [|m2 [|m3 [|]]]]; try discriminate.
  destruct y as [|y1 [|y2 [|y3 [|y4 [|]]]]]; try discriminate.
  simpl in Hm, Hy. split_bools.
  assert (Ascii.eqb m1 "-" = false) by (apply word_not_dash; assumption).
  destruct d as [|a [|b [|]]]; try discriminate; simpl in Hd; split_bools; crunch;
    reflexivity.
Qed.

Lemma token_none_space d m y :
  day_token d = true -> word3 m = true -> digits4 y = true ->
  none_of is_space (d ++ "-" ++ m ++ "-" ++ y) = true.
Proof.
  intros Hd Hm Hy.
  destruct m as [|m1 [|m2 [|m3 [|]]]]; try discriminate.
  destruct y as [|y1 [|y2 [|y3 [|y4 [|]]]]]; try discriminate.
  simpl in Hm, Hy. split_bools.
  destruct d as [|a [|b [|]]]; try discriminate; simpl in Hd; split_bools;
    cbn -[is_space is_digit is_word];
    repeat match goal with
    | H : is_digit ?c = true |- context [is_space ?c] => rewrite (digit_not_space c H)
    | H : is_word ?c = true |- context [is_space ?c] => rewrite (word_not_space c H)
    end; reflexivity.
Qed.

Lemma token_nonempty d m y :
  day_token d = true -> String.eqb (d ++ "-" ++ m ++ "-" ++ y) "" = false.
Proof. destruct d; [discriminate|reflexivity]. Qed.

End DmyProofs.

Import JS Fmt DateParse Shape Facts DmyProofs.

(** ** C9. An unknown month abbreviation becomes January *)

(** Claim C9: for a text [D-Mon-YYYY] or [DD-Mon-YYYY] whose month token is
    not one of the twelve abbreviations of the month table, every variant of
    [parseDate] ([sync-local.js], [src/types.ts], [scripts/sync-issues.js])
    returns [YYYY-01-DD] (the day padded to two digits) on every host. *)
Theorem parseDate_unknown_month_01 (d m y : string)
  (Hd : day_token d = true) (Hm : word3 m = true) (Hy : digits4 y = true)
  (Hunknown : lookup m months = None) :
  forall legacy_parse date_of_number parse_date_code local_offset make_local,
  let s := d ++ "-" ++ m ++ "-" ++ y in
  parseDate_local legacy_parse date_of_number (CStr s)
    = Ret (Some (y ++ "-01-" ++ padStart2 d)) /\
  parseDate_ts legacy_parse parse_date_code (CStr s)
    = Ret (y ++ "-01-" ++ padStart2 d) /\
  parseDate_issues legacy_parse date_of_number local_offset make_local (CStr s)
    = Ret (Some (y ++ "-01-" ++ padStart2 d)).
Proof.
  intros legacy_parse date_of_number parse_date_code local_offset make_local s.
  unfold parseDate_local, parseDate_ts, parseDate_issues, s.
  cbn [truthy js_String].
  rewrite (token_nonempty d m y Hd). cbn [negb].
  rewrite (trim_none _ (token_none_space d m y Hd Hm Hy)).
  rewrite (token_nonempty d m y Hd).
  rewrite (match_dmy_token d m y Hd Hm Hy).
  unfold format_dmy. rewrite Hunknown.
  repeat split.
Qed.

Lemma parseDate_unknown_month_01_witness :
  day_token "15" = true /\ word3 "Foo" = true /\ digits4 "2025" = true /\
  lookup "Foo" months = None /\
  parseDate_local (fun _ => None) (fun _ => None) (CStr "15-Foo-2025")
    = Ret (Some "2025-01-15").
Proof.
  refine (conj eq_refl (conj eq_refl (conj eq_refl (conj eq_refl _)))).
  exact (proj1 (parseDate_unknown_month_01 "15" "Foo" "2025" eq_refl eq_refl eq_refl
                  eq_refl (fun _ => None) (fun _ => None) (fun _ => None)
                  (fun _ => 0) (fun c => mkTv c 0))).
Defined.

(** ** Canonical dates through the Date Parser *)

Lemma canonical_parts s :
  is_canonical_date s = true ->
  exists y1 y2 y3 y4 m1 m2 d1 d2,
    s = String y1 (String y2 (String y3 (String y4 (String "-"
          (String m1 (String m2 (String "-" (String d1 (String d2 EmptyString))))))))) /\
    is_digit y1 = true /\ is_digit y2 = true /\ is_digit y3 = true /\
    is_digit y4 = true /\ is_digit m1 = true /\ is_digit m2 = true /\
    is_digit d1 = true /\ is_digit d2 = true /\
    es_date_only s = Some (mkTv (mkCivil
        (digits_value (String y1 (String y2 (String y3 (String y4 "")))))
        (digits_value (String m1 (String m2 "")))
        (digits_value (String d1 (String d2 "")))) 0).
Proof.
  unfold is_canonical_date. intros H.
  destruct (es_date_only s) as [t|] eqn:E; [|discriminate]. clear H.
  destruct s as [|y1 [|y2 [|y3 [|y4 [|h1 [|m1 [|m2 [|h2 [|d1 [|d2 [|]]]]]]]]]]];
    try discriminate.
  cbn [es_date_only] in E.
  destruct (is_digit y1 && is_digit y2 && is_digit y3 && is_digit y4 && Ascii.eqb h1 "-"
            && is_digit m1 && is_digit m2 && Ascii.eqb h2 "-" && is_digit d1
            && is_digit d2) eqn:B; [|discriminate].
  split_bools.
  repeat match goal with H : Ascii.eqb _ _ = true |- _ => apply Ascii.eqb_eq in H end.
  subst h1 h2.
  exists y1, y2, y3, y4, m1, m2, d1, d2.
  repeat split; try assumption.
  revert E. cbv zeta.
  destruct (valid_civil _); [intros E; injection E as <-; reflexivity | discriminate].
Qed.

Lemma match_dmy_canonical s : is_canonical_date s = true -> match_dmy s = None.
Proof.
  intros H.
  destruct (canonical_parts s H)
    as (y1 & y2 & y3 & y4 & m1 & m2 & d1 & d2 & -> & Hy1 & Hy2 & Hy3 & Hy4 & Hm1 & Hm2
        & Hd1 & Hd2 & _).
  repeat match goal with
  | H : is_digit ?c = true |- _ =>
      lazymatch goal with
      | _ : Ascii.eqb c "-" = false |- _ => fail
      | _ => assert (Ascii.eqb c "-" = false) by (apply digit_ne; [exact H | reflexivity]);
             assert (is_word c = true) by (apply digit_word; exact H)
      end
  end.
  crunch; reflexivity.
Qed.

(** [toISOString] of the UTC midnight of a canonical date, up to the [T]. *)
Lemma iso_day_canonical s :
  is_canonical_date s = true ->
  exists t, es_date_only s = Some t /\ iso_day (Some t) = Ret s.
Proof.
  intros H.
  destruct (canonical_parts s H)
    as (y1 & y2 & y3 & y4 & m1 & m2 & d1 & d2 & -> & Hy1 & Hy2 & Hy3 & Hy4 & Hm1 & Hm2
        & Hd1 & Hd2 & E).
  eexists. split; [exact E|].
  unfold iso_day, toISOString. cbn [tv_day tv_ms cy cm cd].
  unfold iso_year.
  rewrite (proj2 (Z.leb_le _ _) (proj1 (four_digits_range _ _ _ _ Hy1 Hy2 Hy3 Hy4))).
  rewrite (proj2 (Z.leb_le _ _) (proj2 (four_digits_range _ _ _ _ Hy1 Hy2 Hy3 Hy4))).
  cbn [andb].
  rewrite four_digits_value, !two_digits_value by assumption.
  repeat match goal with
  | H : is_digit ?c = true |- _ =>
      lazymatch goal with
      | _ : Ascii.eqb c "T" = false |- _ => fail
      | _ => assert (Ascii.eqb c "T" = false) by (apply digit_ne; [exact H | reflexivity])
      end
  end.
  cbn -[Ascii.eqb two_digits three_digits].
  repeat match goal with H : Ascii.eqb _ "T" = false |- _ => rewrite H end.
  reflexivity.
Qed.

Lemma canonical_none_space s : is_canonical_date s = true -> none_of is_space s = true.
Proof.
  intros H.
  destruct (canonical_parts s H)
    as (y1 & y2 & y3 & y4 & m1 & m2 & d1 & d2 & -> & Hy1 & Hy2 & Hy3 & Hy4 & Hm1 & Hm2
        & Hd1 & Hd2 & _).
  cbn -[is_space is_digit].
  repeat match goal with
  | H : is_digit ?c = true |- context [is_space ?c] => rewrite (digit_not_space c H)
  end; reflexivity.
Qed.

(** The round trip holds in [sync-local.js] and in the dashboard, on every host. *)
Lemma parseDate_local_ts_canonical s legacy_parse date_of_number parse_date_code :
  is_canonical_date s = true ->
  parseDate_local legacy_parse date_of_number (CStr s) = Ret (Some s) /\
  parseDate_ts legacy_parse parse_date_code (CStr s) = Ret s.
Proof.
  intros H.
  destruct (iso_day_canonical s H) as (t & Et & Ei).
  assert (Hne : String.eqb s "" = false).
  { destruct (canonical_parts s H) as (y1 & y2 & y3 & y4 & m1 & m2 & d1 & d2 & Hs & _).
    rewrite Hs. reflexivity. }
  unfold parseDate_local, parseDate_ts. cbn [truthy js_String new_Date].
  rewrite Hne. cbn [negb].
  rewrite (trim_none s (canonical_none_space s H)), Hne.
  rewrite (match_dmy_canonical s H).
  unfold date_parse. rewrite Et, Ei. split; reflexivity.
Qed.

(** ** C4. Round trip of canonical dates *)

(** Claim C4 (code bug in [scripts/sync-issues.js]): on a host whose local
    time is behind UTC (UTC-4 here, New York in October), the project-dates
    [parseDate] turns the canonical ["2025-10-01"] into ["2025-09-30"]: the
    text is read as UTC midnight and printed with the local-time getters.
    [sync-local.js] returns the text unchanged on the same host. *)
Theorem parseDate_issues_canonical_shifted :
  forall legacy_parse date_of_number make_local,
  parseDate_issues legacy_parse date_of_number (fun _ => -14400000) make_local
    (CStr "2025-10-01") = Ret (Some "2025-09-30") /\
  parseDate_local legacy_parse date_of_number (CStr "2025-10-01")
    = Ret (Some "2025-10-01").
Proof. intros. split; reflexivity. Qed.

(** ** C3. Text the Date Parser cannot read *)




(** ** Facts about the reconcilers and the batch driver *)
Module SyncFacts.
Import JS DateParse Remote Rows Sync.

Lemma find_some_iff {A} (f : A -> bool) (l : list A) :
  (exists x, find f l = Some x) <-> exists x, In x l /\ f x = true.
Proof.
  split.
  - intros [x Hx]. exists x. exact (find_some f l Hx).
  - intros [x [Hin Hf]]. destruct (find f l) eqn:E; [eauto|].
    exfalso. pose proof (find_none f l E x Hin). congruence.
Qed.

Lemma bind_ret_inv {A B} (c : M A) (k : A -> M B) st b st' :
  bind c k st = (Ret b, st') -> exists a st1, c st = (Ret a, st1) /\ k a st1 = (Ret b, st').
Proof.
  unfold bind. destruct (c st) as [[a|e] st1]; intros H; [eauto | discriminate H].
Qed.

Lemma lift_ret_inv {A} (o : outcome A) st a st' :
  lift o st = (Ret a, st') -> o = Ret a /\ st' = st.
Proof. unfold lift. intros H. injection H as -> ->. auto. Qed.

(** Take the first step of a successful run apart. *)
Ltac peel H :=
  let a := fresh "a" in let st := fresh "st" in let H1 := fresh "H" in
  apply bind_ret_inv in H; destruct H as (a & st & H1 & H); cbv beta zeta in H.

Lemma same_task_spec dts activity t i :
  same_task dts activity t i = true <->
  includes (title i) (template dts activity) = true \/ CStr (title i) = t.
Proof.
  unfold same_task. rewrite orb_true_iff.
  destruct t; try (split; [intros [H|H]; [auto|discriminate H] | intros [H|H]; [auto|discriminate H]]).
  rewrite String.eqb_eq. split; intros [H|H]; auto; right; congruence.
Qed.

(** In [sync-local.js] a row updates exactly when an issue of the snapshot
    has its title. *)
Lemma syncRow_local_action dts lp dn r existing st a st' t :
  createIssueTitle_local dts r = Ret t ->
  syncRow_local dts lp dn r existing st = (Ret (Some a), st') ->
  (a = Updated <-> exists i, In i existing /\ title i = t).
Proof.
  intros Ht H. unfold syncRow_local in H.
  destruct (negb _); [discriminate H|].
  peel H. apply lift_ret_inv in H0 as [Ht' ->]. rewrite Ht in Ht'. injection Ht' as <-.
  do 5 peel H.
  pose proof (find_some_iff (fun i => String.eqb (title i) t) existing) as Hf.
  destruct (find _ existing) as [i|] eqn:E; peel H; unfold ret in H; injection H as <- _.
  - split; [intros _|reflexivity].
    destruct (proj1 Hf (ex_intro _ i eq_refl)) as (j & Hj & Hj').
    apply String.eqb_eq in Hj'. eauto.
  - split; [discriminate|]. intros (j & Hj & Hj').
    apply String.eqb_eq in Hj'.
    destruct (proj2 Hf (ex_intro _ j (conj Hj Hj'))) as [x Hx]. discriminate Hx.
Qed.

(** In the project-dates script a row updates exactly when an issue of the
    snapshot has a title containing the activity or equal to the new title. *)
Lemma syncRow_issues_action dts lp dn lo ml r existing st res st' t :
  createIssueTitle_issues dts r = Ret t ->
  syncRow_issues dts lp dn lo ml r existing st = (Ret (Some res), st') ->
  (fst res = Updated <-> exists i, In i existing /\
     (includes (title i) (template dts (getField r "Activity")) = true \/ CStr (title i) = t)).
Proof.
  intros Ht H. unfold syncRow_issues in H.
  destruct (negb _); [discriminate H|].
  peel H. apply lift_ret_inv in H0 as [Ht' ->]. rewrite Ht in Ht'. injection Ht' as <-.
  do 3 peel H.
  pose proof (find_some_iff (same_task dts (getField r "Activity") t) existing) as Hf.
  setoid_rewrite same_task_spec in Hf.
  destruct (find _ existing) as [i|] eqn:E; peel H.
  - unfold ret in H. injection H as <- _. cbn [fst].
    split; [intros _|reflexivity]. apply Hf. eauto.
  - destruct a2; try discriminate H. unfold ret in H. injection H as <- _. cbn [fst].
    split; [discriminate|]. intros Hx. apply Hf in Hx as [x Hx]. discriminate Hx.
Qed.

Lemma mem_app_last name l : mem name (l ++ [name]) = true.
Proof.
  unfold mem. rewrite existsb_app. cbn. rewrite String.eqb_refl. apply orb_true_r.
Qed.

Lemma msg_404_local : includes ("GitHub API " ++ Z_to_string 404 ++ ": " ++ "Not Found") "404" = true.
Proof. vm_compute. reflexivity. Qed.

Lemma msg_404_apps : includes ("GitHub API Error: " ++ Z_to_string 404) "404" = true.
Proof. vm_compute. reflexivity. Qed.

(** One [ensureLabel] call on a server that answers normally. *)
Lemma ensureLabel_local_ok name color s tr (Hok : forall q, srv_fail s q = None) :
  ensureLabel_local name color (mkState s tr) =
  if mem name (srv_labels s) then (Ret tt, mkState s (tr ++ [GetLabel name]))
  else (Ret tt, mkState (add_label s name) (tr ++ [GetLabel name; PostLabel name color])).
Proof.
  unfold ensureLabel_local, githubRequest_local.
  unfold catch, bind, ret, request_with, handle; cbn [srv_fail st_srv st_trace];
  rewrite Hok; cbn [srv_labels].
  destruct (mem name (srv_labels s)) eqn:E; cbn -[includes Z_to_string append]; [reflexivity|].
  rewrite msg_404_local. cbn -[Z_to_string append]. rewrite Hok, E.
  cbn -[Z_to_string append]. rewrite <- app_assoc. reflexivity.
Qed.

Lemma ensureLabel_apps_ok name color s tr (Hok : forall q, srv_fail s q = None) :
  ensureLabel_apps name color (mkState s tr) =
  if mem name (srv_labels s) then (Ret tt, mkState s (tr ++ [GetLabel name]))
  else (Ret tt, mkState (add_label s name) (tr ++ [GetLabel name; PostLabel name color])).
Proof.
  unfold ensureLabel_apps, githubRequest_apps.
  unfold catch, bind, ret, request_with, handle; cbn [srv_fail st_srv st_trace];
  rewrite Hok; cbn [srv_labels].
  destruct (mem name (srv_labels s)) eqn:E; cbn -[includes Z_to_string append]; [reflexivity|].
  rewrite msg_404_apps. cbn -[Z_to_string append]. rewrite Hok, E.
  cbn -[Z_to_string append]. rewrite <- app_assoc. reflexivity.
Qed.

Lemma count_posts_label_app tr tr' :
  count_posts_label (tr ++ tr') = (count_posts_label tr + count_posts_label tr')%nat.
Proof. unfold count_posts_label. rewrite filter_app, length_app. reflexivity. Qed.

Lemma request_with_trace msg r st :
  st_trace (snd (request_with msg r st)) = (st_trace st ++ [r])%list.
Proof.
  unfold request_with. destruct (handle _ _) as [[[c p] b] s']. destruct (400 <=? c); reflexivity.
Qed.

Lemma request_with_fail msg r s tr code body :
  srv_fail s r = Some (code, body) -> 400 <= code ->
  request_with msg r (mkState s tr) = (Throw (msg code body), mkState s (tr ++ [r])%list).
Proof.
  intros Hf Hc. apply Z.leb_le in Hc. unfold request_with, handle. cbn [st_srv st_trace].
  rewrite Hf, Hc. reflexivity.
Qed.

Lemma only_ret {A} P (a : A) : only P (ret a).
Proof. intros st o st' H. injection H as _ <-. exists []. rewrite app_nil_r. auto. Qed.

Lemma only_throw {A} P e : only P (@throw A e).
Proof. intros st o st' H. injection H as _ <-. exists []. rewrite app_nil_r. auto. Qed.

Lemma only_lift {A} P (o : outcome A) : only P (lift o).
Proof. intros st o' st' H. injection H as _ <-. exists []. rewrite app_nil_r. auto. Qed.

Lemma only_bind {A B} P (c : M A) (k : A -> M B) :
  only P c -> (forall a, only P (k a)) -> only P (bind c k).
Proof.
  intros Hc Hk st o st' H. unfold bind in H.
  destruct (c st) as [[a|e] st1] eqn:E.
  - destruct (Hc _ _ _ E) as (r1 & Ht1 & Hp1). destruct (Hk a _ _ _ H) as (r2 & Ht2 & Hp2).
    exists (r1 ++ r2)%list. rewrite Ht2, Ht1, app_assoc, forallb_app, Hp1, Hp2. auto.
  - injection H as _ <-. exact (Hc _ _ _ E).
Qed.

Lemma only_catch {A} P (c : M A) (h : string -> M A) :
  only P c -> (forall e, only P (h e)) -> only P (catch c h).
Proof.
  intros Hc Hh st o st' H. unfold catch in H.
  destruct (c st) as [[a|e] st1] eqn:E.
  - injection H as _ <-. exact (Hc _ _ _ E).
  - destruct (Hc _ _ _ E) as (r1 & Ht1 & Hp1). destruct (Hh e _ _ _ H) as (r2 & Ht2 & Hp2).
    exists (r1 ++ r2)%list. rewrite Ht2, Ht1, app_assoc, forallb_app, Hp1, Hp2. auto.
Qed.

Lemma only_request P msg r : P r = true -> only P (request_with msg r).
Proof.
  intros HP st o st' H. exists [r]. split.
  - rewrite <- (request_with_trace msg r st), H. reflexivity.
  - cbn. rewrite HP. reflexivity.
Qed.

Ltac only_tac :=
  repeat first
    [ apply only_ret | apply only_throw | apply only_lift
    | apply only_bind; [|intros]
    | apply only_catch; [|intros]
    | apply only_request; reflexivity
    | progress unfold githubRequest_local
    | match goal with
      | |- only _ (match ?x with _ => _ end) => destruct x
      | |- only _ (if ?x then _ else _) => destruct x
      end ].

Lemma ensureLabel_local_only name color :
  only (fun q => negb (is_page q)) (ensureLabel_local name color).
Proof. unfold ensureLabel_local. only_tac. Qed.

Lemma syncRow_local_only dts lp dn r existing :
  only (fun q => negb (is_page q)) (syncRow_local dts lp dn r existing).
Proof.
  unfold syncRow_local. cbv zeta.
  repeat first [ apply ensureLabel_local_only | progress only_tac ].
Qed.

Lemma fetch_pages_only fuel page acc : only is_page (fetch_pages fuel page acc).
Proof.
  revert page acc. induction fuel as [|f IH]; intros page acc; cbn [fetch_pages].
  - apply only_ret.
  - apply only_bind; [apply only_request; reflexivity|]. intros p.
    destruct p as [|l|i]; try apply only_ret. destruct l; [apply only_ret | apply IH].
Qed.

Lemma sync_rows_local_only dts lp dn rows existing c0 u0 k0 :
  only (fun q => negb (is_page q)) (sync_rows_local dts lp dn rows existing c0 u0 k0).
Proof.
  revert c0 u0 k0. induction rows as [|r rs IH]; intros c0 u0 k0; cbn [sync_rows_local].
  - apply only_ret.
  - destruct (negb _); [apply IH|].
    apply only_bind; [apply syncRow_local_only|]. intros [[|]|]; apply IH.
Qed.

Lemma syncRow_local_some dts lp dn r existing st res st' :
  truthy (prop r "Activity") = true ->
  syncRow_local dts lp dn r existing st = (Ret res, st') ->
  exists t a, createIssueTitle_local dts r = Ret t /\ res = Some a.
Proof.
  intros Ha H. unfold syncRow_local in H. rewrite Ha in H. cbn [negb] in H.
  peel H. apply lift_ret_inv in H0 as [Ht ->].
  do 5 peel H.
  destruct (find _ existing); peel H; unfold ret in H; injection H as <- _; eauto.
Qed.

Lemma existsb_title_iff t existing :
  existsb (fun i => String.eqb (title i) t) existing = true <->
  exists i, In i existing /\ title i = t.
Proof.
  rewrite existsb_exists. split; intros (i & Hi & Ht); exists i; split; auto;
  [apply String.eqb_eq | apply String.eqb_eq]; assumption.
Qed.

(** The counts of the batch loop, against the one snapshot it is given. *)
Lemma sync_rows_local_counts dts lp dn rows existing c0 u0 k0 st c u k st' :
  sync_rows_local dts lp dn rows existing c0 u0 k0 st = (Ret (c, u, k), st') ->
  c = c0 + Z.of_nat (length (filter (fun r => truthy (prop r "Activity")
                                               && negb (title_known dts existing r)) rows)) /\
  u = u0 + Z.of_nat (length (filter (fun r => truthy (prop r "Activity")
                                               && title_known dts existing r) rows)) /\
  k = k0 + Z.of_nat (length (filter (fun r => negb (truthy (prop r "Activity"))) rows)).
Proof.
  revert c0 u0 k0 st. induction rows as [|r rs IH]; intros c0 u0 k0 st H.
  - cbn in H. injection H as -> -> -> _. cbn. lia.
  - cbn [sync_rows_local] in H. cbn [filter].
    destruct (truthy (prop r "Activity")) eqn:Ha; cbn [negb andb] in H |- *.
    + peel H. destruct (syncRow_local_some _ _ _ _ _ _ _ _ Ha H0) as (t & act & Ht & ->).
      pose proof (syncRow_local_action _ _ _ _ _ _ _ _ _ Ht H0) as Hact.
      destruct act.
      * assert (Hk : existsb (fun i => String.eqb (title i) t) existing = false).
        { destruct (existsb _ _) eqn:E; [|reflexivity].
          apply existsb_title_iff, Hact in E. discriminate E. }
        assert (Hr : title_known dts existing r = false)
          by (unfold title_known; rewrite Ht; exact Hk).
        rewrite Hr. cbn [negb andb].
        destruct (IH _ _ _ _ H) as (H1 & H2 & H3). cbn [length]. lia.
      * assert (Hk : existsb (fun i => String.eqb (title i) t) existing = true).
        { apply existsb_title_iff, Hact. reflexivity. }
        assert (Hr : title_known dts existing r = true)
          by (unfold title_known; rewrite Ht; exact Hk).
        rewrite Hr. cbn [negb andb].
        destruct (IH _ _ _ _ H) as (H1 & H2 & H3). cbn [length]. lia.
    + destruct (IH _ _ _ _ H) as (H1 & H2 & H3). cbn [length]. lia.
Qed.

End SyncFacts.

(** ** Facts about the board updater *)
Module BoardFacts.
Import Board.

Lemma set_field_values b item f v i f' :
  bd_values (set_field b item f v) i f' =
  if String.eqb i item && String.eqb f' f then Some v else bd_values b i f'.
Proof. reflexivity. Qed.

End BoardFacts.

(** ** Facts about the dashboard loader *)
Module DashFacts.
Import JS DateParse Rows Dashboard.

Lemma find_index_first {A} (f : A -> bool) l i :
  find_index f l = Some i ->
  exists x, nth_error l i = Some x /\ f x = true /\ forallb (fun y => negb (f y)) (firstn i l) = true.
Proof.
  revert i. induction l as [|x l IH]; intros i H; cbn in H; [discriminate H|].
  destruct (f x) eqn:E.
  - injection H as <-. exists x. auto.
  - destruct (find_index f l) as [j|] eqn:Ej; cbn in H; [|discriminate H].
    injection H as <-. destruct (IH j eq_refl) as (y & Hy & Hf & Hpre).
    exists y. cbn. rewrite E, Hpre. auto.
Qed.

Lemma find_index_none {A} (f : A -> bool) l :
  find_index f l = None <-> forallb (fun y => negb (f y)) l = true.
Proof.
  induction l as [|x l IH]; cbn; [split; auto|].
  destruct (f x); cbn; [split; discriminate|].
  destruct (find_index f l); cbn; rewrite <- IH; split; congruence.
Qed.

Lemma findCol_nil hs : findCol hs [] = Ret (-1).
Proof. reflexivity. Qed.

Lemma findCol_cons hs kw kws :
  findCol hs (kw :: kws) =
  match scan_col kw 0 (map (option_map (fun h => trim (toLowerCase h))) hs) with
  | Throw e => Throw e
  | Ret (Some i) => Ret (Z.of_nat i)
  | Ret None => findCol hs kws
  end.
Proof. reflexivity. Qed.

Lemma scan_col_spec kw i lower j :
  scan_col kw i lower = Ret (Some j) ->
  exists n l, j = (i + n)%nat /\ nth_error lower n = Some (Some l) /\
    includes l (toLowerCase kw) = true.
Proof.
  revert i. induction lower as [|[l|] lower IH]; intros i H; cbn in H; try discriminate H.
  destruct (includes l (toLowerCase kw)) eqn:E.
  - injection H as <-. exists 0%nat, l. rewrite Nat.add_0_r. auto.
  - destruct (IH _ H) as (n & l' & -> & H1 & H2). exists (S n), l'. split; [lia|auto].
Qed.

(** On a header row without holes the scan is [find_index]. *)
Lemma scan_col_some kw i ls :
  scan_col kw i (map Some ls) =
  Ret (option_map (Nat.add i) (find_index (fun l => includes l (toLowerCase kw)) ls)).
Proof.
  revert i. induction ls as [|l ls IH]; intros i; [reflexivity|].
  cbn [map scan_col find_index]. destruct (includes l (toLowerCase kw)).
  - cbn. rewrite Nat.add_0_r. reflexivity.
  - rewrite IH. destruct (find_index _ ls); cbn; [do 2 f_equal; lia | reflexivity].
Qed.

Lemma findCol_holefree_cons hs kw kws :
  findCol (map Some hs) (kw :: kws) =
  match find_index (fun l => includes l (toLowerCase kw)) (map (fun h => trim (toLowerCase h)) hs) with
  | Some i => Ret (Z.of_nat i)
  | None => findCol (map Some hs) kws
  end.
Proof.
  rewrite findCol_cons.
  replace (map (option_map (fun h => trim (toLowerCase h))) (map Some hs))
    with (map Some (map (fun h => trim (toLowerCase h)) hs)) by (rewrite !map_map; reflexivity).
  rewrite scan_col_some. destruct (find_index _ _); reflexivity.
Qed.



Lemma findCol_spec hs kws z :
  findCol hs kws = Ret z ->
  z = -1 \/ exists i l kw, z = Z.of_nat i /\ In kw kws /\
    nth_error (map (option_map (fun h => trim (toLowerCase h))) hs) i = Some (Some l) /\
    includes l (toLowerCase kw) = true.
Proof.
  induction kws as [|kw kws IH]; intros H.
  - rewrite findCol_nil in H. injection H as <-. left; reflexivity.
  - rewrite findCol_cons in H.
    destruct (scan_col kw 0 _) as [[i|]|e] eqn:E; try discriminate H.
    + injection H as <-. right. destruct (scan_col_spec _ _ _ _ E) as (n & l & -> & H1 & H2).
      exists n, l, kw. repeat split; auto. left; reflexivity.
    + destruct (IH H) as [->|(i & l & kw' & H1 & H2 & H3 & H4)]; [left; reflexivity|].
      right. exists i, l, kw'. repeat split; auto. right; exact H2.
Qed.

(** A column whose header reads [status] matches none of [keywords]. *)
Lemma findCol_avoids hs kws k z
  (Hk : nth_error (map (option_map (fun h => trim (toLowerCase h))) hs) k = Some (Some "status"))
  (Hkw : forallb (fun kw => negb (includes "status" (toLowerCase kw))) kws = true)
  (Hz : findCol hs kws = Ret z) :
  z <> Z.of_nat k.
Proof.
  destruct (findCol_spec hs kws z Hz) as [->|(i & l & kw & -> & H2 & H3 & H4)]; [lia|].
  intros Hi. apply Nat2Z.inj in Hi. subst i.
  rewrite Hk in H3. injection H3 as <-.
  rewrite forallb_forall in Hkw. specialize (Hkw kw H2). rewrite H4 in Hkw. discriminate Hkw.
Qed.




Lemma find_cols_ret hs c :
  find_cols hs = Ret c ->
  findCol hs ["phase"] = Ret (c_phase c) /\ findCol hs ["activity"] = Ret (c_activity c) /\
  findCol hs ["task detail"] = Ret (c_taskDetail c) /\
  findCol hs ["pt1 principle"; "principle"] = Ret (c_principle c) /\
  findCol hs ["deliverable"] = Ret (c_deliverable c) /\ findCol hs ["owner"] = Ret (c_owner c) /\
  findCol hs ["quarter"] = Ret (c_quarter c) /\
  findCol hs ["start date"; "start"] = Ret (c_startDate c) /\
  findCol hs ["end date"; "end"] = Ret (c_endDate c).
Proof.
  intros H. unfold find_cols, obind in H.
  repeat match type of H with context [match findCol ?h ?k with _ => _ end] =>
    let E := fresh "E" in destruct (findCol h k) eqn:E; [|discriminate H] end.
  injection H as <-. repeat split; assumption.
Qed.


Section Agree.
  Variable date_toString : option tv -> string.
  Variable legacy_parse : string -> option tv.
  Variable parse_date_code : Z -> option (Z * Z * Z).
  Context {F : Type}.
  Variable F_of_Z : Z -> F.
  Variable F_nan : F.
  Variables F_add F_sub F_mul F_div : F -> F -> F.
  Variable F_round : F -> F.
  Variable now : tv.
  Variable local_midnight : Z.
  Variable k : nat.

Lemma text_at_agree r1 r2 c : agree_off k r1 r2 -> c <> Z.of_nat k ->
    text_at date_toString r1 c = text_at date_toString r2 c.
  Proof.
    intros Ha Hc. unfold text_at, at_index. destruct (0 <=? c) eqn:E; [|reflexivity].
    rewrite Ha; [reflexivity|]. apply Z.leb_le in E. lia.
  Qed.

Lemma date_at_agree r1 r2 c : agree_off k r1 r2 -> c <> Z.of_nat k ->
    date_at legacy_parse parse_date_code r1 c = date_at legacy_parse parse_date_code r2 c.
  Proof.
    intros Ha Hc. unfold date_at, at_index. destruct (0 <=? c) eqn:E; [|reflexivity].
    rewrite Ha; [reflexivity|]. apply Z.leb_le in E. lia.
  Qed.

Lemma text_at_nil c : text_at date_toString [] c = "".
  Proof. unfold text_at, at_index. destruct (0 <=? c); [destruct (Z.to_nat c)|]; reflexivity. Qed.

  (** The check [row.length === 0] is subsumed by the activity check. *)
Lemma row_task_unfold cols i r :
    row_task date_toString legacy_parse parse_date_code F_of_Z F_nan F_sub F_mul F_div F_round
      now local_midnight cols i r =
    (let activity_ := text_at date_toString r (c_activity cols) in
     if String.eqb activity_ "" then Ret None else
     match date_at legacy_parse parse_date_code r (c_startDate cols) with
     | Throw e => Throw e
     | Ret sd =>
       match date_at legacy_parse parse_date_code r (c_endDate cols) with
       | Throw e => Throw e
       | Ret ed =>
           Ret (Some (mkTask ("task-" ++ Z_to_string (Z.of_nat i))
                       (text_at date_toString r (c_phase cols)) activity_
                       (text_at date_toString r (c_taskDetail cols))
                       (text_at date_toString r (c_principle cols))
                       (text_at date_toString r (c_deliverable cols))
                       (text_at date_toString r (c_owner cols))
                       (text_at date_toString r (c_quarter cols)) sd ed
                       (determineStatus legacy_parse local_midnight sd ed)
                       (calculateProgress legacy_parse F_of_Z F_nan F_sub F_mul F_div F_round
                          now sd ed)))
       end
     end).
  Proof. destruct r; [cbv zeta; rewrite text_at_nil; reflexivity | reflexivity]. Qed.

Lemma row_task_agree cols i r1 r2 : cols_off k cols -> agree_off k r1 r2 ->
    row_task date_toString legacy_parse parse_date_code F_of_Z F_nan F_sub F_mul F_div F_round
      now local_midnight cols i r1 =
    row_task date_toString legacy_parse parse_date_code F_of_Z F_nan F_sub F_mul F_div F_round
      now local_midnight cols i r2.
  Proof.
    intros Hc Ha. rewrite !row_task_unfold.
    inversion_clear Hc as [|? ? H1 Hc1]. inversion_clear Hc1 as [|? ? H2 Hc2].
    inversion_clear Hc2 as [|? ? H3 Hc3]. inversion_clear Hc3 as [|? ? H4 Hc4].
    inversion_clear Hc4 as [|? ? H5 Hc5]. inversion_clear Hc5 as [|? ? H6 Hc6].
    inversion_clear Hc6 as [|? ? H7 Hc7]. inversion_clear Hc7 as [|? ? H8 Hc8].
    inversion_clear Hc8 as [|? ? H9 _].
    cbv zeta.
    rewrite !(text_at_agree r1 r2) by assumption.
    rewrite !(date_at_agree r1 r2) by assumption.
    reflexivity.
  Qed.

Lemma collect_agree cols i rows1 rows2 tasks pm : cols_off k cols ->
    Forall2 (agree_off k) rows1 rows2 ->
    collect date_toString legacy_parse parse_date_code F_of_Z F_nan F_sub F_mul F_div F_round
      now local_midnight cols i rows1 tasks pm =
    collect date_toString legacy_parse parse_date_code F_of_Z F_nan F_sub F_mul F_div F_round
      now local_midnight cols i rows2 tasks pm.
  Proof.
    intros Hc Hr. revert i tasks pm.
    induction Hr as [|r1 r2 rs1 rs2 Ha _ IH]; intros i tasks pm; [reflexivity|].
    cbn [collect]. rewrite (row_task_agree cols i r1 r2 Hc Ha).
    destruct (row_task _ _ _ _ _ _ _ _ _ _ _ cols i r2) as [[t|]|e]; auto.
  Qed.
End Agree.

End DashFacts.

Import Remote Rows Sync SyncFacts.

(** ** C1. The match policy of the Task Reconciler *)

(** Claim C1 (amended): the two reconcilers match differently, each on its
    own. In the project-dates script of [scripts/sync-issues.js] (lines
    819-821), every run of [syncRow] that builds the title [t] and completes
    updates exactly when an issue of the snapshot has a title that contains
    the activity text or equals [t]; otherwise it creates. In
    [sync-local.js] (line 249), every run of [syncRow] that builds the title
    [t] and completes updates exactly when an issue of the snapshot has the
    title [t]. *)
Theorem syncRow_match_policy :
  (forall dts lp dn lo ml r existing st t res st',
     createIssueTitle_issues dts r = Ret t ->
     syncRow_issues dts lp dn lo ml r existing st = (Ret (Some res), st') ->
     (fst res = Updated <-> exists i, In i existing /\
        (includes (title i) (template dts (getField r "Activity")) = true \/ CStr (title i) = t))) /\
  (forall dts lp dn r existing st t a st',
     createIssueTitle_local dts r = Ret t ->
     syncRow_local dts lp dn r existing st = (Ret (Some a), st') ->
     (a = Updated <-> exists i, In i existing /\ title i = t)).
Proof.
  split; intros.
  - exact (syncRow_issues_action _ _ _ _ _ _ _ _ _ _ _ H H0).
  - exact (syncRow_local_action _ _ _ _ _ _ _ _ _ H H0).
Qed.

(** The Kickoff example: against an issue ["[Phase 1] Kickoff Meeting"],
    the project-dates script updates it and [sync-local.js] creates. *)
Lemma syncRow_match_policy_witness :
  let kick := [("Phase", CStr "Phase 1: Setup"); ("Activity", CStr "Kickoff")] in
  let snapshot := [mkIssue 7 "[Phase 1] Kickoff Meeting" []] in
  let st := mkState (mkServer [] snapshot 8 (fun _ => None)) [] in
  (fst (Updated, 7) = Updated <-> exists i, In i snapshot /\
     (includes (title i) "Kickoff" = true \/ CStr (title i) = CStr "[Phase 1] Kickoff")) /\
  (Created = Updated <-> exists i, In i snapshot /\ title i = "[Phase 1] Kickoff").
Proof.
  intros kick snapshot st. split.
  - exact (proj1 syncRow_match_policy (fun _ => "") (fun _ => None) (fun _ => None) (fun _ => 0)
             (fun c => mkTv c 0) kick snapshot st
             (CStr "[Phase 1] Kickoff") (Updated, 7)
             (snd (syncRow_issues (fun _ => "") (fun _ => None) (fun _ => None) (fun _ => 0)
                     (fun c => mkTv c 0) kick snapshot st))
             eq_refl eq_refl).
  - exact (proj2 syncRow_match_policy (fun _ => "") (fun _ => None) (fun _ => None) kick snapshot st
             "[Phase 1] Kickoff" Created
             (snd (syncRow_local (fun _ => "") (fun _ => None) (fun _ => None) kick snapshot st))
             eq_refl eq_refl).
Defined.

(** Claim C1 as stated fails for [sync-local.js]: with the issue
    ["[Phase 1] Kickoff Meeting"] in the snapshot, the row with activity
    ["Kickoff"] is created, not updated. *)
Lemma syncRow_local_kickoff_creates :
  fst (syncRow_local (fun _ => "") (fun _ => None) (fun _ => None)
         [("Phase", CStr "Phase 1: Setup"); ("Activity", CStr "Kickoff")]
         [mkIssue 7 "[Phase 1] Kickoff Meeting" []]
         (mkState (mkServer [] [mkIssue 7 "[Phase 1] Kickoff Meeting" []] 8 (fun _ => None)) []))
  = Ret (Some Created).
Proof. reflexivity. Qed.

(** ** C2. Issue titles *)

(** Claim C2 (amended): for a row whose Phase is the text [p] (or absent)
    and whose Activity is a non-empty text [a], [sync-local.js] builds
    ["[" ++ h ++ "] " ++ a] with [h] the text of [p] before its first [':'],
    or ["Task"] when that is empty; the project-dates script builds
    ["[" ++ ph ++ "] " ++ a] when it derives a phase label [ph], and the bare
    activity [a] when it derives none. *)
Theorem createIssueTitle_forms dts r p a
  (Hp : or_else (prop r "Phase") (CStr "") = CStr p)
  (Ha : prop r "Activity" = CStr a) (Hne : String.eqb a "" = false) :
  createIssueTitle_local dts r
    = Ret ("[" ++ (if String.eqb (split_first ":"%char p) "" then "Task"
                   else split_first ":"%char p) ++ "] " ++ a) /\
  (forall ph, getPhaseFromRow r = Ret (Some ph) ->
     createIssueTitle_issues dts r = Ret (CStr ("[" ++ ph ++ "] " ++ a))) /\
  (getPhaseFromRow r = Ret None -> createIssueTitle_issues dts r = Ret (CStr a)).
Proof.
  assert (Hga : or_else (getField r "Activity") (CStr "Untitled Task") = CStr a).
  { unfold getField. rewrite Ha. unfold or_else. cbn [truthy]. rewrite Hne. reflexivity. }
  split; [|split].
  - unfold createIssueTitle_local. rewrite Hp. cbn [as_string].
    assert (Hla : or_else (prop r "Activity") (CStr "") = CStr a).
    { rewrite Ha. unfold or_else. cbn [truthy]. rewrite Hne. reflexivity. }
    rewrite Hla. reflexivity.
  - intros ph Hph. unfold createIssueTitle_issues. rewrite Hga, Hph. reflexivity.
  - intros Hph. unfold createIssueTitle_issues. rewrite Hga, Hph. reflexivity.
Qed.

(** The Kickoff example: both scripts title it ["[Phase 1] Kickoff"]. *)
Lemma createIssueTitle_forms_witness :
  createIssueTitle_local (fun _ => "")
    [("Phase", CStr "Phase 1: Setup"); ("Activity", CStr "Kickoff")] = Ret "[Phase 1] Kickoff" /\
  createIssueTitle_issues (fun _ => "")
    [("Phase", CStr "Phase 1: Setup"); ("Activity", CStr "Kickoff")]
    = Ret (CStr "[Phase 1] Kickoff").
Proof.
  destruct (createIssueTitle_forms (fun _ => "")
              [("Phase", CStr "Phase 1: Setup"); ("Activity", CStr "Kickoff")]
              "Phase 1: Setup" "Kickoff" eq_refl eq_refl eq_refl) as (H1 & H2 & _).
  split; [exact H1 | exact (H2 "Phase 1" eq_refl)].
Defined.

(** Claim C2 as stated fails for the project-dates script: with an empty
    Phase and an activity naming no phase, the title is the bare activity,
    with no ["[Task]"] prefix (which [sync-local.js] does add). *)
Lemma createIssueTitle_issues_no_task_prefix :
  createIssueTitle_issues (fun _ => "") [("Phase", CStr ""); ("Activity", CStr "Kickoff")]
    = Ret (CStr "Kickoff") /\
  createIssueTitle_local (fun _ => "") [("Phase", CStr ""); ("Activity", CStr "Kickoff")]
    = Ret "[Task] Kickoff".
Proof. split; reflexivity. Qed.

(** ** C5. Ensuring a label twice *)

(** Claim C5: on a server that answers every request normally, two calls
    of [ensureLabel] with the same name and colour (in [sync-local.js] and
    in the Apps Script) look the label up by its exact name each time; when
    the label is absent before the first call, exactly one create is made,
    on the not-found answer of the first lookup, and the second call finds
    the label and makes none. (When the label exists already, neither call
    creates it.) *)
Theorem ensureLabel_twice name color s tr (Hok : forall q, srv_fail s q = None) :
  let new := if mem name (srv_labels s) then [GetLabel name; GetLabel name]
             else [GetLabel name; PostLabel name color; GetLabel name] in
  let creates := if mem name (srv_labels s) then 0%nat else 1%nat in
  (fst ((ensureLabel_local name color ;;; ensureLabel_local name color) (mkState s tr)) = Ret tt /\
   st_trace (snd ((ensureLabel_local name color ;;; ensureLabel_local name color) (mkState s tr)))
     = (tr ++ new)%list /\
   count_posts_label
     (st_trace (snd ((ensureLabel_local name color ;;; ensureLabel_local name color) (mkState s tr))))
     = (count_posts_label tr + creates)%nat) /\
  (fst ((ensureLabel_apps name color ;;; ensureLabel_apps name color) (mkState s tr)) = Ret tt /\
   st_trace (snd ((ensureLabel_apps name color ;;; ensureLabel_apps name color) (mkState s tr)))
     = (tr ++ new)%list /\
   count_posts_label
     (st_trace (snd ((ensureLabel_apps name color ;;; ensureLabel_apps name color) (mkState s tr))))
     = (count_posts_label tr + creates)%nat).
Proof.
  intros new creates. subst new creates.
  assert (Hok' : forall q, srv_fail (add_label s name) q = None) by exact Hok.
  unfold bind.
  rewrite ensureLabel_local_ok, ensureLabel_apps_ok by exact Hok.
  destruct (mem name (srv_labels s)) eqn:E.
  - rewrite ensureLabel_local_ok, ensureLabel_apps_ok, E by exact Hok.
    cbn [fst snd st_trace]. rewrite <- !app_assoc, !count_posts_label_app.
    repeat split.
  - rewrite ensureLabel_local_ok, ensureLabel_apps_ok by exact Hok'.
    cbn [srv_labels add_label]. rewrite mem_app_last.
    cbn [fst snd st_trace]. rewrite <- !app_assoc, !count_posts_label_app.
    repeat split.
Qed.

(** A label absent at first is created once by the two calls. *)
Lemma ensureLabel_twice_witness :
  count_posts_label (st_trace (snd ((ensureLabel_local "Phase 1" (Some "0052CC") ;;;
                                     ensureLabel_local "Phase 1" (Some "0052CC"))
                                    (mkState (mkServer [] [] 1 (fun _ => None)) [])))) = 1%nat.
Proof.
  exact (proj2 (proj2 (proj1 (ensureLabel_twice "Phase 1" (Some "0052CC")
                                (mkServer [] [] 1 (fun _ => None)) [] (fun _ => eq_refl))))).
Defined.

(** ** C6. A label lookup that fails otherwise than with 404 *)

(** Claim C6 (amended): when the lookup of a label fails with a status of
    400 or more whose error message does not contain ["404"], [ensureLabel]
    of [sync-local.js] and of the Apps Script catches the error and returns
    normally, with no create, no retry and the server unchanged; the
    [ensureLabel] of the first script of [scripts/sync-issues.js] sends a
    create after any lookup failure. *)
Theorem ensureLabel_other_failure name color s tr code body
  (Hfail : srv_fail s (GetLabel name) = Some (code, body)) (Hcode : 400 <= code) :
  (includes ("GitHub API " ++ Z_to_string code ++ ": " ++ body) "404" = false ->
     ensureLabel_local name color (mkState s tr)
       = (Ret tt, mkState s (tr ++ [GetLabel name])%list)) /\
  (includes ("GitHub API Error: " ++ Z_to_string code) "404" = false ->
     ensureLabel_apps name color (mkState s tr)
       = (Ret tt, mkState s (tr ++ [GetLabel name])%list)) /\
  (exists o st', ensureLabel_first name color (mkState s tr) = (o, st') /\
                 st_trace st' = (tr ++ [GetLabel name; PostLabel name color])%list).
Proof.
  split; [|split].
  - intros H404. unfold ensureLabel_local, githubRequest_local, catch, bind.
    rewrite (request_with_fail _ _ _ _ _ _ Hfail Hcode). rewrite H404. reflexivity.
  - intros H404. unfold ensureLabel_apps, githubRequest_apps, catch, bind.
    rewrite (request_with_fail _ _ _ _ _ _ Hfail Hcode). rewrite H404. reflexivity.
  - unfold ensureLabel_first, githubRequest_first, catch, bind.
    rewrite (request_with_fail _ _ _ _ _ _ Hfail Hcode).
    pose proof (request_with_trace
                  (fun code body => "GitHub API error: " ++ Z_to_string code ++ " - " ++ body)
                  (PostLabel name color) (mkState s (tr ++ [GetLabel name])%list)) as Ht.
    destruct (request_with _ (PostLabel name color) _) as [o st'].
    cbn [snd st_trace] in Ht. rewrite <- app_assoc in Ht.
    destruct o; do 2 eexists; split; try reflexivity; exact Ht.
Qed.

(** A lookup answered with 500 is swallowed by [sync-local.js]. *)
Lemma ensureLabel_other_failure_witness :
  ensureLabel_local "Phase 1" (Some "0052CC")
    (mkState (mkServer [] [] 1 (fun _ => Some (500, "Server Error"))) [])
  = (Ret tt, mkState (mkServer [] [] 1 (fun _ => Some (500, "Server Error"))) [GetLabel "Phase 1"]).
Proof.
  exact (proj1 (ensureLabel_other_failure "Phase 1" (Some "0052CC")
                  (mkServer [] [] 1 (fun _ => Some (500, "Server Error"))) [] 500 "Server Error"
                  eq_refl ltac:(lia)) ltac:(vm_compute; reflexivity)).
Defined.

(** Claim C6 as stated fails: a label lookup answered with 500 is not fatal
    for the row; [ensureLabel] returns normally and the row's issue is
    still created. *)
Lemma ensureLabel_failure_row_continues :
  let kick := [("Phase", CStr "Phase 1: Setup"); ("Activity", CStr "Kickoff")] in
  let srv := mkServer [] [] 1 (fun q => match q with
                                        | GetLabel _ => Some (500, "Server Error")
                                        | _ => None end) in
  ensureLabel_local "Phase 1" (Some "0052CC") (mkState srv []) = (Ret tt, mkState srv [GetLabel "Phase 1"]) /\
  fst (syncRow_local (fun _ => "") (fun _ => None) (fun _ => None) kick [] (mkState srv []))
    = Ret (Some Created).
Proof. split; vm_compute; reflexivity. Qed.

(** ** C7. The Schedule Field Updater *)
Module ScheduleClaims.
Import Board BoardFacts.

(** Claim C7: the start and end dates are written independently, in the
    project-dates script (lines 925-932 with [updateProjectItemDate]) and in
    the Apps Script's [updateProjectDates]. A non-empty date is written to
    its own field; an empty (or [null]) date sends no write for its field
    and keeps the value the board had there; no other (item, field) value
    changes; the writes are one per non-empty date. *)
Theorem schedule_dates_independent item fs fe (Hf : String.eqb fs fe = false) b
    (sd ed : option string) (sa ea : string) :
  let b' := set_item_dates item fs fe sd ed b in
  let b'' := updateProjectDates_apps (Some item) (Some fs) (Some fe) sa ea b in
  (bd_values b' item fs = (if date_truthy sd then sd else bd_values b item fs) /\
   bd_values b' item fe = (if date_truthy ed then ed else bd_values b item fe) /\
   (forall i f, i <> item \/ (f <> fs /\ f <> fe) -> bd_values b' i f = bd_values b i f) /\
   bd_writes b' = (bd_writes b
                   ++ (match sd with Some v => if date_truthy sd then [(item, fs, v)] else []
                                | None => [] end)
                   ++ (match ed with Some v => if date_truthy ed then [(item, fe, v)] else []
                                | None => [] end))%list) /\
  (bd_values b'' item fs = (if String.eqb sa "" then bd_values b item fs else Some sa) /\
   bd_values b'' item fe = (if String.eqb ea "" then bd_values b item fe else Some ea) /\
   (forall i f, i <> item \/ (f <> fs /\ f <> fe) -> bd_values b'' i f = bd_values b i f) /\
   bd_writes b'' = (bd_writes b
                    ++ (if String.eqb sa "" then [] else [(item, fs, sa)])
                    ++ (if String.eqb ea "" then [] else [(item, fe, ea)]))%list).
Proof.
  intros b' b''. subst b' b''.
  assert (Hfe : String.eqb fe fs = false) by (rewrite String.eqb_sym; exact Hf).
  rename Hf into Hfs.
  assert (Hoff : forall i f, i <> item \/ (f <> fs /\ f <> fe) ->
            forall g, g = fs \/ g = fe -> String.eqb i item && String.eqb f g = false).
  { intros i f Hif g Hg. destruct Hif as [Hi|[H1 H2]].
    - apply String.eqb_neq in Hi. rewrite Hi. reflexivity.
    - destruct Hg as [->| ->].
      + apply String.eqb_neq in H1. rewrite H1. apply andb_false_r.
      + apply String.eqb_neq in H2. rewrite H2. apply andb_false_r. }
  split.
  - unfold set_item_dates, updateProjectItemDate, date_truthy.
    destruct sd as [vs|], ed as [ve|]; cbn [negb];
      repeat match goal with |- context [String.eqb ?v ""] => destruct (String.eqb v "") eqn:? end;
      cbn [negb];
      repeat split; intros; rewrite ?set_field_values, ?String.eqb_refl, ?Hfe, ?Hfs; cbn;
      rewrite ?app_nil_r, <- ?app_assoc; try reflexivity;
      rewrite ?Hoff by auto; reflexivity.
  - unfold updateProjectDates_apps.
    destruct (String.eqb sa "") eqn:Es, (String.eqb ea "") eqn:Ee;
      repeat split; intros; rewrite ?set_field_values, ?String.eqb_refl, ?Hfe, ?Hfs; cbn;
      rewrite ?app_nil_r, <- ?app_assoc; try reflexivity;
      rewrite ?Hoff by auto; reflexivity.
Qed.

(** Only a start date: the end date set before is kept, one write. *)
Lemma schedule_dates_independent_witness :
  let b := mkBoard (fun _ _ => Some "2025-12-31") [] in
  let b' := set_item_dates "I1" "F_start" "F_end" (Some "2025-10-01") None b in
  bd_values b' "I1" "F_end" = Some "2025-12-31" /\
  bd_writes b' = [("I1", "F_start", "2025-10-01")].
Proof.
  intros b b'.
  destruct (proj1 (schedule_dates_independent "I1" "F_start" "F_end" eq_refl b
                     (Some "2025-10-01") None "" "")) as (_ & H2 & _ & H4).
  split; [exact H2 | exact H4].
Defined.

End ScheduleClaims.

(** ** C8. The issue snapshot of a batch run *)

(** Claim C8 (amended): a completed run of [main] in [sync-local.js] fetches
    the issue list once, before the first row: its page requests come first
    and no later request reads the list. Every row is looked up in that one
    list; issues created during the run are not added to it. So the created
    count is the number of rows with an activity whose title is not in the
    fetched list, repeated titles included, and the updated count the number
    of rows whose title is in it. *)
Theorem main_local_fetch_once dts lp dn rows st c u k st'
  (Hrun : main_local dts lp dn rows st = (Ret (c, u, k), st')) :
  exists snapshot st1 pages rest,
    getExistingIssues st = (Ret snapshot, st1) /\
    st_trace st1 = (st_trace st ++ pages)%list /\ forallb is_page pages = true /\
    st_trace st' = (st_trace st1 ++ rest)%list /\
    forallb (fun q => negb (is_page q)) rest = true /\
    c = Z.of_nat (length (filter (fun r => truthy (prop r "Activity")
                                           && negb (title_known dts snapshot r)) rows)) /\
    u = Z.of_nat (length (filter (fun r => truthy (prop r "Activity")
                                           && title_known dts snapshot r) rows)) /\
    k = Z.of_nat (length (filter (fun r => negb (truthy (prop r "Activity"))) rows)).
Proof.
  unfold main_local in Hrun. peel Hrun.
  destruct (fetch_pages_only _ _ _ _ _ _ H) as (pages & Hp1 & Hp2).
  destruct (sync_rows_local_only _ _ _ _ _ _ _ _ _ _ _ Hrun) as (rest & Hr1 & Hr2).
  destruct (sync_rows_local_counts _ _ _ _ _ _ _ _ _ _ _ _ _ Hrun) as (Hc & Hu & Hk).
  exists a, st0, pages, rest. repeat split; auto; lia.
Qed.

(** Two rows with the same new title, on an empty tracker. *)
Lemma main_local_fetch_once_witness :
  let kick := [("Phase", CStr "Phase 1: Setup"); ("Activity", CStr "Kickoff")] in
  let st0 := mkState (mkServer [] [] 1 (fun _ => None)) [] in
  exists snapshot st1 pages rest,
    getExistingIssues st0 = (Ret snapshot, st1) /\
    st_trace st1 = (st_trace st0 ++ pages)%list /\ forallb is_page pages = true /\
    st_trace (snd (main_local (fun _ => "") (fun _ => None) (fun _ => None) [kick; kick] st0))
      = (st_trace st1 ++ rest)%list /\
    forallb (fun q => negb (is_page q)) rest = true /\
    2 = Z.of_nat (length (filter (fun r => truthy (prop r "Activity")
                                   && negb (title_known (fun _ => "") snapshot r)) [kick; kick])) /\
    0 = Z.of_nat (length (filter (fun r => truthy (prop r "Activity")
                                   && title_known (fun _ => "") snapshot r) [kick; kick])) /\
    0 = Z.of_nat (length (filter (fun r => negb (truthy (prop r "Activity"))) [kick; kick])).
Proof.
  intros kick st0.
  exact (main_local_fetch_once (fun _ => "") (fun _ => None) (fun _ => None) [kick; kick] st0
           2 0 0 (snd (main_local (fun _ => "") (fun _ => None) (fun _ => None) [kick; kick] st0))
           eq_refl).
Defined.

(** Claim C8 as stated fails: the issue created for the first row is not
    seen by the second row with the same title, and a second issue with
    that title is created. *)
Lemma main_local_duplicate_creates :
  let kick := [("Phase", CStr "Phase 1: Setup"); ("Activity", CStr "Kickoff")] in
  let run := main_local (fun _ => "") (fun _ => None) (fun _ => None) [kick; kick]
               (mkState (mkServer [] [] 1 (fun _ => None)) []) in
  fst run = Ret (2, 0, 0) /\
  filter (fun q => match q with PostIssue _ _ => true | _ => false end) (st_trace (snd run))
    = [PostIssue "[Phase 1] Kickoff" ["Phase 1"]; PostIssue "[Phase 1] Kickoff" ["Phase 1"]] /\
  map title (srv_issues (st_srv (snd run))) = ["[Phase 1] Kickoff"; "[Phase 1] Kickoff"].
Proof. vm_compute. repeat split. Qed.

(** ** C10. The dashboard ignores the Status column *)
Module DashboardClaims.
Import Dashboard DashFacts.

(** Claim C10: [fetchProjectData] never reads a column headed Status. Two
    sheets with the same header row, in which column [k] is headed
    ["Status"] (in any case, with any surrounding spaces), and whose data
    rows agree on every other column, load to the same result: the same
    tasks (with their statuses and progress, computed from the dates), the
    same phases and the same statistics. *)
Theorem load_rows_ignores_status dts lp pdc {F : Type} (F_of_Z : Z -> F) F_nan
    F_add F_sub F_mul F_div F_round now local_midnight
    (header : list cell) (body1 body2 : list (list cell)) (k : nat) (h : string)
    (Hh : nth_error header k = Some (CStr h))
    (Hstatus : String.eqb (trim (toLowerCase h)) "status" = true)
    (Hrows : Forall2 (agree_off k) body1 body2) :
  load_rows dts lp pdc F_of_Z F_nan F_add F_sub F_mul F_div F_round now local_midnight
    (header :: body1) =
  load_rows dts lp pdc F_of_Z F_nan F_add F_sub F_mul F_div F_round now local_midnight
    (header :: body2).
Proof.
  destruct Hrows as [|r1 r2 rs1 rs2 Ha Hrs]; [reflexivity|].
  set (headers := map (header_text dts) header).
  assert (Hk : nth_error (map (option_map (fun h0 => trim (toLowerCase h0))) headers) k
               = Some (Some "status")).
  { unfold headers. rewrite !nth_error_map, Hh. cbn [option_map header_text].
    unfold or_else. cbn [truthy].
    destruct (String.eqb h "") eqn:E.
    - apply String.eqb_eq in E. subst h. discriminate Hstatus.
    - cbn [negb template js_String]. apply String.eqb_eq in Hstatus. rewrite Hstatus. reflexivity. }
  unfold load_rows. fold headers.
  destruct (find_cols headers) as [cols|e] eqn:Ef; [|reflexivity].
  assert (Hc : cols_off k cols).
  { destruct (find_cols_ret _ _ Ef) as (E1 & E2 & E3 & E4 & E5 & E6 & E7 & E8 & E9).
    unfold cols_off. repeat constructor;
      (eapply (findCol_avoids headers _ k _ Hk); [idtac | eassumption]; reflexivity). }
  rewrite (collect_agree dts lp pdc F_of_Z F_nan F_sub F_mul F_div F_round now local_midnight k
             cols 1 (r1 :: rs1) (r2 :: rs2) [] [] Hc
             (Forall2_cons _ _ Ha Hrs)).
  reflexivity.
Qed.

(** A sheet whose only task is marked "Done" and the same sheet marked
    "Blocked" load alike. *)
Lemma load_rows_ignores_status_witness :
  let header := [CStr "Phase"; CStr "Activity"; CStr "Status"; CStr "Start Date"; CStr "End Date"] in
  let row s := [CStr "Phase 1: Setup"; CStr "Kickoff"; CStr s; CStr "2025-10-01"; CStr "2025-10-20"] in
  load_rows (fun _ => "") (fun _ => None) (fun _ => None) (fun z => z) 0 Z.add Z.sub Z.mul Z.div
    (fun z => z) (mkTv (mkCivil 2025 10 10) 0) 1760054400000 [header; row "Done"] =
  load_rows (fun _ => "") (fun _ => None) (fun _ => None) (fun z => z) 0 Z.add Z.sub Z.mul Z.div
    (fun z => z) (mkTv (mkCivil 2025 10 10) 0) 1760054400000 [header; row "Blocked"].
Proof.
  intros header row.
  exact (load_rows_ignores_status (fun _ => "") (fun _ => None) (fun _ => None) (fun z => z) 0
           Z.add Z.sub Z.mul Z.div (fun z => z) (mkTv (mkCivil 2025 10 10) 0) 1760054400000
           header [row "Done"] [row "Blocked"] 2 "Status" eq_refl eq_refl
           ltac:(repeat constructor; intros i Hi;
                 do 5 (destruct i as [|i]; [first [reflexivity | lia] |]); reflexivity)).
Defined.

End DashboardClaims.

(** ** The issue list and the label step of [sync-local.js] *)
Module RemoteFacts.
Import JS DateParse Remote Rows Sync SyncFacts.
Local Open Scope list_scope.

Lemma div100_step (L : nat) : (1 <= L)%nat ->
  ((L + 99) / 100 = S ((L - 100 + 99) / 100))%nat.
Proof.
  intros HL.
  replace (L + 99)%nat with (1 * 100 + (L - 1))%nat by lia.
  rewrite Nat.div_add_l by lia.
  destruct (Nat.le_gt_cases 100 L) as [H|H].
  - replace (L - 100 + 99)%nat with (L - 1)%nat by lia. reflexivity.
  - replace (L - 100 + 99)%nat with 99%nat by lia.
    rewrite (Nat.div_small (L - 1)) by lia. reflexivity.
Qed.

Lemma pages_from_succ (p : Z) (n : nat) :
  map (fun i => GetIssuesPage (p + Z.of_nat i)) (seq 0 (S n)) =
  GetIssuesPage p :: map (fun i => GetIssuesPage (p + 1 + Z.of_nat i)) (seq 0 n).
Proof.
  cbn [seq map]. rewrite Z.add_0_r. f_equal.
  rewrite <- seq_shift, map_map. apply map_ext. intros i. f_equal. lia.
Qed.

Lemma fetch_pages_all s (Hok : forall q, srv_fail s q = None) :
  forall fuel p acc tr, 1 <= p ->
  (length (skipn (100 * (Z.to_nat p - 1)) (srv_issues s)) + 100 <= 100 * fuel)%nat ->
  fetch_pages fuel p acc (mkState s tr) =
  (Ret (acc ++ skipn (100 * (Z.to_nat p - 1)) (srv_issues s))%list,
   mkState s (tr ++ map (fun i => GetIssuesPage (p + Z.of_nat i))
                   (seq 0 ((length (skipn (100 * (Z.to_nat p - 1)) (srv_issues s)) + 99) / 100 + 1)))%list).
Proof.
  induction fuel as [|f IH]; intros p acc tr Hp Hlen; [lia|].
  remember (skipn (100 * (Z.to_nat p - 1)) (srv_issues s)) as rest eqn:Erest.
  cbn [fetch_pages]. unfold bind, githubRequest_local, request_with, handle.
  cbn [st_srv st_trace]. rewrite Hok. cbn [fst snd].
  unfold page_of. rewrite <- Erest.
  destruct rest as [|x xs] eqn:Er.
  - cbn. unfold ret. rewrite Z.add_0_r, app_nil_r. reflexivity.
  - change (firstn 100 (x :: xs)) with (x :: firstn 99 xs).
    assert (Hn : Z.to_nat (p + 1) = S (Z.to_nat p)) by lia.
    assert (Hskip : skipn (100 * (Z.to_nat (p + 1) - 1)) (srv_issues s) = skipn 100 rest).
    { rewrite Hn, Er, Erest, skipn_skipn. f_equal. lia. }
    cbn -[firstn skipn Nat.div].
    assert (Hl : (length (skipn (100 * (Z.to_nat (p + 1) - 1)) (srv_issues s)) + 100 <= 100 * f)%nat).
    { rewrite Hskip, length_skipn, Er. rewrite ?Er in Hlen. cbn [length] in *. lia. }
    rewrite IH by (exact Hl || lia).
    change (x :: firstn 99 xs) with (firstn 100 (x :: xs)).
    rewrite Hskip, Er.
    rewrite <- app_assoc, firstn_skipn.
    f_equal. f_equal. rewrite <- app_assoc. f_equal.
    rewrite length_skipn. cbn [length].
    change (S (length xs + 99)) with (S (length xs) + 99)%nat.
    rewrite (div100_step (S (length xs))) by lia.
    cbn [Nat.add]. rewrite pages_from_succ. reflexivity.
Qed.

(** On a server that answers every request, [getExistingIssues] of
    [sync-local.js] returns every issue of the repository in the server's
    order, changes nothing on the server, and sends the page requests
    [1, 2, ...] up to the first empty page: [ceil(n/100) + 1] requests for
    [n] issues. *)
Theorem getExistingIssues_complete s tr (Hok : forall q, srv_fail s q = None) :
  getExistingIssues (mkState s tr) =
  (Ret (srv_issues s),
   mkState s (tr ++ map (fun i => GetIssuesPage (1 + Z.of_nat i))
                   (seq 0 ((length (srv_issues s) + 99) / 100 + 1)))%list).
Proof.
  unfold getExistingIssues. cbn [st_srv].
  assert (Hz : (100 * (Z.to_nat 1 - 1))%nat = 0%nat) by reflexivity.
  rewrite fetch_pages_all by (exact Hok || lia || (rewrite Hz, skipn_O; lia)).
  rewrite Hz, skipn_O. reflexivity.
Qed.

Lemma getExistingIssues_complete_witness :
  getExistingIssues (mkState (mkServer [] [mkIssue 1 "a" []; mkIssue 2 "b" []] 3 (fun _ => None)) []) =
  (Ret [mkIssue 1 "a" []; mkIssue 2 "b" []],
   mkState (mkServer [] [mkIssue 1 "a" []; mkIssue 2 "b" []] 3 (fun _ => None)) [GetIssuesPage 1; GetIssuesPage 2]).
Proof.
  exact (getExistingIssues_complete (mkServer [] [mkIssue 1 "a" []; mkIssue 2 "b" []] 3 (fun _ => None)) []
           (fun _ => eq_refl)).
Defined.

Definition is_label_req (q : request) : bool :=
  match q with GetLabel _ | PostLabel _ _ => true | _ => false end.

Lemma lookup_in k v tbl : lookup k tbl = Some v -> In (k, v) tbl.
Proof.
  induction tbl as [|[k' v'] tbl IH]; cbn; [discriminate|].
  destruct (String.eqb k k') eqn:E; [|auto].
  intros H. injection H as <-. apply String.eqb_eq in E. subst. auto.
Qed.

(** One [await ensureLabel(...)] followed by [labels.push(name)]. *)
Lemma ensure_push name color (v : list string) s tr a st' :
  (forall q, srv_fail s q = None) ->
  (ensureLabel_local name color ;;; ret v) (mkState s tr) = (Ret a, st') ->
  a = v /\ exists s' pre, st' = mkState s' (tr ++ pre) /\ srv_fail s' = srv_fail s /\
    In (GetLabel name) pre /\ forallb is_label_req pre = true /\
    mem name (srv_labels s') = true /\
    (forall l, mem l (srv_labels s) = true -> mem l (srv_labels s') = true).
Proof.
  intros Hok H. unfold bind in H. rewrite ensureLabel_local_ok in H by exact Hok.
  destruct (mem name (srv_labels s)) eqn:E; unfold ret in H; injection H as <- <-;
    (split; [reflexivity|]).
  - exists s, [GetLabel name]. repeat split; auto. left. reflexivity.
  - exists (add_label s name), [GetLabel name; PostLabel name color].
    repeat split; auto.
    + left. reflexivity.
    + apply mem_app_last.
    + intros l Hl. unfold add_label, mem in *. cbn [srv_labels]. rewrite existsb_app, Hl. reflexivity.
Qed.

Lemma issue_request_labels q s tr o st' :
  match q with PostIssue _ _ | PatchIssue _ _ => True | _ => False end ->
  githubRequest_local q (mkState s tr) = (o, st') ->
  srv_labels (st_srv st') = srv_labels s /\ st_trace st' = tr ++ [q].
Proof.
  intros Hq H. unfold githubRequest_local, request_with, handle in H. cbn [st_srv st_trace] in H.
  destruct (srv_fail s q) as [[c b]|].
  - destruct (400 <=? c); injection H as _ <-; auto.
  - destruct q; try contradiction.
    + destruct (400 <=? 201); injection H as _ <-; auto.
    + destruct (existsb _ _); [destruct (400 <=? 200) | destruct (400 <=? 404)];
        injection H as _ <-; auto.
Qed.

(** The label step of [syncRow]: a label satisfying [P], ensured before it
    is pushed, or none. *)
Lemma label_step (P : string -> Prop) (m : M (list string)) s tr a st1 :
  (forall q, srv_fail s q = None) ->
  (m = ret [] \/ exists key c, m = (ensureLabel_local key c ;;; ret [key]) /\ P key) ->
  m (mkState s tr) = (Ret a, st1) ->
  exists s1 pre, st1 = mkState s1 (tr ++ pre) /\ srv_fail s1 = srv_fail s /\
    forallb is_label_req pre = true /\
    (a = [] \/ exists key, a = [key] /\ P key) /\
    Forall (fun l => In (GetLabel l) pre /\ mem l (srv_labels s1) = true) a /\
    (forall l, mem l (srv_labels s) = true -> mem l (srv_labels s1) = true).
Proof.
  intros Hok [-> | (key & c & -> & HP)] H.
  - unfold ret in H. injection H as <- <-. exists s, []. rewrite app_nil_r. repeat split; auto.
  - apply ensure_push in H as [-> (s1 & pre & -> & Hf & Hin & Hp & Hm & Hinc)]; [|exact Hok].
    exists s1, pre. repeat split; auto. right. exists key. split; [reflexivity|exact HP].
Qed.

Ltac peel_as H x st Hx :=
  apply bind_ret_inv in H; destruct H as (x & st & Hx & H); cbv beta zeta in H.

(** On a server that answers every request, a row that [syncRow] of
    [sync-local.js] handles sends only label requests and then exactly one
    create or update request. Its labels are at most one key of
    [PHASE_LABELS] followed by at most one quarter label: a key of
    [QUARTER_LABELS], or the name of a member of [Object.prototype] (such as
    [toString]), which [QUARTER_LABELS[quarter]] also finds. Each label was
    looked up before the issue request and exists on the server afterwards,
    and no label is removed. *)
Theorem syncRow_local_labels dts lp dn r existing s tr res st'
  (Hok : forall q, srv_fail s q = None)
  (Hrun : syncRow_local dts lp dn r existing (mkState s tr) = (Ret (Some res), st')) :
  exists pre q labels l1 l2,
    st_trace st' = tr ++ pre ++ [q] /\
    ((exists t, q = PostIssue t labels) \/ (exists n, q = PatchIssue n labels)) /\
    forallb is_label_req pre = true /\
    labels = l1 ++ l2 /\
    (l1 = [] \/ exists key, l1 = [key] /\ In key (map fst PHASE_LABELS)) /\
    (l2 = [] \/ exists key, l2 = [key] /\
       (In key (map fst QUARTER_LABELS) \/ In key OBJECT_PROTOTYPE_KEYS)) /\
    Forall (fun l => In (GetLabel l) pre /\ mem l (srv_labels (st_srv st')) = true) labels /\
    (forall l, mem l (srv_labels s) = true -> mem l (srv_labels (st_srv st')) = true).
Proof.
  unfold syncRow_local in Hrun.
  destruct (negb _); [unfold ret in Hrun; injection Hrun as H _; discriminate H|].
  do 4 (let x := fresh "x" in let sx := fresh "sx" in let Hx := fresh "Hx" in
        peel_as Hrun x sx Hx; apply lift_ret_inv in Hx as [_ ->]).
  peel_as Hrun l1 st1 H0.
  apply label_step with (P := fun key => In key (map fst PHASE_LABELS)) in H0; [|exact Hok|].
  2:{ destruct (find _ PHASE_LABELS) as [[key color]|] eqn:Ef; [right|left; reflexivity].
      do 2 eexists. split; [reflexivity|].
      exact (in_map fst _ _ (proj1 (find_some _ _ Ef))). }
  destruct H0 as (s1 & pre1 & -> & Hf1 & Hp1 & Hl1 & Hm1 & Hinc1).
  assert (Hok1 : forall q, srv_fail s1 q = None) by (intros q; rewrite Hf1; apply Hok).
  peel_as Hrun l2 st2 H0.
  assert (H2 : exists s2 pre2, st2 = mkState s2 ((tr ++ pre1) ++ pre2) /\ srv_fail s2 = srv_fail s1 /\
    forallb is_label_req pre2 = true /\
    (l2 = [] \/ exists key, l2 = [key] /\
       (In key (map fst QUARTER_LABELS) \/ In key OBJECT_PROTOTYPE_KEYS)) /\
    Forall (fun l => In (GetLabel l) pre2 /\ mem l (srv_labels s2) = true) l2 /\
    (forall l, mem l (srv_labels s1) = true -> mem l (srv_labels s2) = true)).
  { refine (label_step (fun key => In key (map fst QUARTER_LABELS) \/ In key OBJECT_PROTOTYPE_KEYS)
              _ _ _ _ _ Hok1 _ H0).
    destruct (truthy _); [|left; reflexivity].
    unfold js_get. destruct (lookup _ QUARTER_LABELS) as [c|] eqn:El.
    - right. do 2 eexists. split; [reflexivity|].
      left. exact (in_map fst _ _ (lookup_in _ _ _ El)).
    - destruct (existsb _ OBJECT_PROTOTYPE_KEYS) eqn:Ep; [right|left; reflexivity].
      do 2 eexists. split; [reflexivity|]. right.
      apply existsb_exists in Ep as (y & Hy & Heq). apply String.eqb_eq in Heq. subst y. exact Hy. }
  clear H0. destruct H2 as (s2 & pre2 & -> & Hf2 & Hp2 & Hl2 & Hm2 & Hinc2).
  set (labels := l1 ++ l2) in Hrun.
  assert (Hfin : forall q o st3, match q with PostIssue _ _ | PatchIssue _ _ => True | _ => False end ->
            githubRequest_local q (mkState s2 ((tr ++ pre1) ++ pre2)) = (o, st3) ->
            srv_labels (st_srv st3) = srv_labels s2 /\ st_trace st3 = tr ++ (pre1 ++ pre2) ++ [q]).
  { intros q o st3 Hq Hr. apply issue_request_labels in Hr as [H1 H2]; [|exact Hq].
    split; [exact H1|]. rewrite H2, !app_assoc. reflexivity. }
  assert (Hlab : Forall (fun l => In (GetLabel l) (pre1 ++ pre2) /\ mem l (srv_labels s2) = true) labels).
  { apply Forall_app. split.
    - eapply Forall_impl; [|exact Hm1]. intros l [Hg Hm]. split; [apply in_or_app; left; exact Hg|].
      apply Hinc2. exact Hm.
    - eapply Forall_impl; [|exact Hm2]. intros l [Hg Hm]. split; [apply in_or_app; right; exact Hg|].
      exact Hm. }
  destruct (find _ existing) as [i|].
  - peel_as Hrun p st3 H0. unfold ret in Hrun. injection Hrun as _ <-.
    destruct (Hfin (PatchIssue (number i) labels) _ _ I H0) as [Hs Ht].
    exists (pre1 ++ pre2), (PatchIssue (number i) labels), labels, l1, l2.
    rewrite Hs. repeat split; auto.
    + right. eauto.
    + rewrite forallb_app, Hp1, Hp2. reflexivity.
  - peel_as Hrun p st3 H0. unfold ret in Hrun. injection Hrun as _ <-.
    destruct (Hfin (PostIssue x labels) _ _ I H0) as [Hs Ht].
    exists (pre1 ++ pre2), (PostIssue x labels), labels, l1, l2.
    rewrite Hs. repeat split; auto.
    + left. eauto.
    + rewrite forallb_app, Hp1, Hp2. reflexivity.
Qed.

Lemma sync_rows_local_prefix dts lp dn rows1 rows2 existing c0 u0 k0 st c u k st1 :
  sync_rows_local dts lp dn rows1 existing c0 u0 k0 st = (Ret (c, u, k), st1) ->
  sync_rows_local dts lp dn (rows1 ++ rows2) existing c0 u0 k0 st =
  sync_rows_local dts lp dn rows2 existing c u k st1.
Proof.
  revert c0 u0 k0 st. induction rows1 as [|r rs IH]; intros c0 u0 k0 st H.
  - cbn in H. injection H as -> -> -> <-. reflexivity.
  - cbn [app sync_rows_local] in *. destruct (negb _); [apply IH; exact H|].
    unfold bind in *. destruct (syncRow_local _ _ _ r existing st) as [[o|e] st0]; [|discriminate H].
    destruct o as [[|]|]; apply IH; exact H.
Qed.

(** In the loop of [main] of [sync-local.js], a row with an activity whose
    Phase cell is truthy but not text (a number or a date) makes
    [createIssueTitle] throw ([phase.split] is not a function): the run
    stops at that row with the error, no request is sent for it or for any
    later row, and the rows before it have had their effect. *)
Theorem sync_rows_local_abort dts lp dn rows1 r rows2 existing c0 u0 k0 st c u k st1
  (Hpre : sync_rows_local dts lp dn rows1 existing c0 u0 k0 st = (Ret (c, u, k), st1))
  (Hact : truthy (prop r "Activity") = true)
  (Hph : truthy (prop r "Phase") = true)
  (Hnot : forall p, prop r "Phase" <> CStr p) :
  sync_rows_local dts lp dn (rows1 ++ r :: rows2) existing c0 u0 k0 st =
  (Throw "TypeError: not a function", st1).
Proof.
  rewrite (sync_rows_local_prefix _ _ _ _ _ _ _ _ _ _ _ _ _ _ Hpre).
  cbn [sync_rows_local]. rewrite Hact. cbn [negb].
  unfold bind at 1, syncRow_local. rewrite Hact. cbn [negb].
  unfold bind at 1, lift, createIssueTitle_local, or_else. rewrite Hph.
  destruct (prop r "Phase") eqn:E; try reflexivity.
  exfalso. exact (Hnot _ eq_refl).
Qed.

Lemma syncRow_local_labels_witness :
  let row := [("Phase", CStr "Phase 1: Setup"); ("Activity", CStr "Kickoff"); ("Quarter", CStr "toString")] in
  let s := mkServer [] [] 1 (fun _ => None) in
  exists pre q labels l1 l2,
    st_trace (snd (syncRow_local (fun _ => "") (fun _ => None) (fun _ => None) row [] (mkState s [])))
      = [] ++ pre ++ [q] /\
    ((exists t, q = PostIssue t labels) \/ (exists n, q = PatchIssue n labels)) /\
    forallb is_label_req pre = true /\ labels = l1 ++ l2 /\
    (l1 = [] \/ exists key, l1 = [key] /\ In key (map fst PHASE_LABELS)) /\
    (l2 = [] \/ exists key, l2 = [key] /\
       (In key (map fst QUARTER_LABELS) \/ In key OBJECT_PROTOTYPE_KEYS)) /\
    Forall (fun l => In (GetLabel l) pre /\
      mem l (srv_labels (st_srv (snd (syncRow_local (fun _ => "") (fun _ => None) (fun _ => None) row [] (mkState s []))))) = true) labels /\
    (forall l, mem l (srv_labels s) = true ->
      mem l (srv_labels (st_srv (snd (syncRow_local (fun _ => "") (fun _ => None) (fun _ => None) row [] (mkState s []))))) = true).
Proof.
  intros row s.
  exact (syncRow_local_labels (fun _ => "") (fun _ => None) (fun _ => None) row [] s [] Created
           (snd (syncRow_local (fun _ => "") (fun _ => None) (fun _ => None) row [] (mkState s [])))
           (fun _ => eq_refl) eq_refl).
Defined.

Lemma sync_rows_local_abort_witness :
  let kick := [("Phase", CStr "Phase 1: Setup"); ("Activity", CStr "Kickoff")] in
  let bad := [("Phase", CNum 1); ("Activity", CStr "Audit")] in
  let st := mkState (mkServer [] [] 1 (fun _ => None)) [] in
  truthy (prop bad "Activity") = true /\ truthy (prop bad "Phase") = true /\
  sync_rows_local (fun _ => "") (fun _ => None) (fun _ => None) ([kick] ++ bad :: [kick]) [] 0 0 0 st =
  (Throw "TypeError: not a function",
   snd (sync_rows_local (fun _ => "") (fun _ => None) (fun _ => None) [kick] [] 0 0 0 st)).
Proof.
  intros kick bad st. split; [reflexivity|split; [reflexivity|]].
  exact (sync_rows_local_abort (fun _ => "") (fun _ => None) (fun _ => None) [kick] bad [kick] [] 0 0 0 st
           1 0 0 (snd (sync_rows_local (fun _ => "") (fun _ => None) (fun _ => None) [kick] [] 0 0 0 st))
           eq_refl eq_refl eq_refl (fun p H => ltac:(discriminate H))).
Defined.

End RemoteFacts.

(** ** The dashboard loader of [src/types.ts] *)
Module LoaderFacts.
Import JS Cal Fmt DateParse Rows Dashboard DashFacts.
Local Open Scope list_scope.

Section Stats.
Variable dts : option tv -> string.
Variable lp : string -> option tv.
Variable pdc : Z -> option (Z * Z * Z).
Context {F : Type}.
Variable F_of_Z : Z -> F.
Variable F_nan : F.
Variables F_add F_sub F_mul F_div : F -> F -> F.
Variable F_round : F -> F.
Variable now : tv.
Variable lm : Z.

Local Abbreviation Task := (@Task F).
Local Abbreviation load := (load_rows dts lp pdc F_of_Z F_nan F_add F_sub F_mul F_div F_round now lm).
Local Abbreviation collect_ := (collect dts lp pdc F_of_Z F_nan F_sub F_mul F_div F_round now lm).
Local Abbreviation row_task_ := (row_task dts lp pdc F_of_Z F_nan F_sub F_mul F_div F_round now lm).

Lemma determineStatus_not_blocked sd ed : determineStatus lp lm sd ed <> blocked.
Proof.
  unfold determineStatus.
  repeat match goal with
         | |- context [if ?b then _ else _] => destruct b
         | |- context [match ?x with _ => _ end] => destruct x
         end; discriminate.
Qed.

(** A task built by the row loop. *)
Definition built (t : Task) : Prop :=
  activity t <> "" /\ status t = determineStatus lp lm (startDate t) (endDate t).

Lemma row_task_built cols i r t :
  row_task_ cols i r = Ret (Some t) -> built t.
Proof.
  rewrite row_task_unfold. cbv zeta.
  destruct (String.eqb _ "") eqn:Ea; [discriminate|].
  destruct (date_at _ _ _ _) as [sd|e]; [|discriminate].
  destruct (date_at _ _ _ _) as [ed|e]; [|discriminate].
  intros H. injection H as <-. split; cbn; [|reflexivity].
  intros E. rewrite E in Ea. discriminate Ea.
Qed.

(** The invariant of the row loop on the phase map. *)
Definition phase_inv (tasks : list Task) (pm : list (string * list Task)) : Prop :=
  NoDup (map fst pm) /\
  Forall (fun e => fst e <> "" /\
           snd e = filter (fun t => String.eqb (phase t) (fst e)) tasks) pm /\
  Forall (fun t => phase t <> "" -> In (phase t) (map fst pm)) tasks.

Lemma add_to_phase_names (pm : list (string * list Task)) t :
  map fst (add_to_phase pm t) =
  if existsb (fun n => String.eqb n (phase t)) (map fst pm) then map fst pm
  else map fst pm ++ [phase t].
Proof.
  induction pm as [|[n ts] pm IH]; [reflexivity|].
  cbn [add_to_phase map fst existsb].
  destruct (String.eqb n (phase t)) eqn:E; cbn [orb map fst]; [reflexivity|].
  rewrite IH. destruct (existsb _ _); reflexivity.
Qed.

Lemma filter_snoc_other (tasks : list Task) t n :
  String.eqb (phase t) n = false ->
  filter (fun t' => String.eqb (phase t') n) (tasks ++ [t]) =
  filter (fun t' => String.eqb (phase t') n) tasks.
Proof. intros E. rewrite filter_app. cbn. rewrite E, app_nil_r. reflexivity. Qed.

Lemma filter_snoc_same (tasks : list Task) t n :
  String.eqb (phase t) n = true ->
  filter (fun t' => String.eqb (phase t') n) (tasks ++ [t]) =
  filter (fun t' => String.eqb (phase t') n) tasks ++ [t].
Proof. intros E. rewrite filter_app. cbn. rewrite E. reflexivity. Qed.

Lemma add_to_phase_entries (tasks : list Task) t pm :
  NoDup (map fst pm) -> phase t <> "" ->
  Forall (fun e => fst e <> "" /\
           snd e = filter (fun t' => String.eqb (phase t') (fst e)) tasks) pm ->
  (~ In (phase t) (map fst pm) -> filter (fun t' => String.eqb (phase t') (phase t)) tasks = []) ->
  Forall (fun e => fst e <> "" /\
           snd e = filter (fun t' => String.eqb (phase t') (fst e)) (tasks ++ [t]))
    (add_to_phase pm t).
Proof.
  intros Hnd Hp Hf Hnew. induction pm as [|[n ts] pm IH]; cbn [add_to_phase].
  - constructor; [|constructor]. cbn [fst snd]. split; [exact Hp|].
    rewrite filter_snoc_same by apply String.eqb_refl. rewrite Hnew by (intros []). reflexivity.
  - cbn [map fst] in Hnd. inversion Hnd as [|? ? Hn Hnd']. subst.
    inversion Hf as [|? ? [Hne Hts] Hf']. subst. cbn [fst snd] in Hne, Hts.
    destruct (String.eqb n (phase t)) eqn:E.
    + apply String.eqb_eq in E. subst n.
      constructor.
      * cbn [fst snd]. split; [exact Hne|]. rewrite filter_snoc_same by apply String.eqb_refl.
        rewrite Hts. reflexivity.
      * rewrite Forall_forall in Hf' |- *. intros [n' ts'] Hin.
        destruct (Hf' _ Hin) as [H1 H2]. cbn [fst snd] in *. split; [exact H1|].
        rewrite filter_snoc_other; [exact H2|].
        apply String.eqb_neq. intros Heq. apply Hn. rewrite Heq.
        apply (in_map fst _ _ Hin).
    + constructor.
      * cbn [fst snd]. split; [exact Hne|]. rewrite filter_snoc_other; [exact Hts|].
        rewrite String.eqb_sym. exact E.
      * apply IH; auto. intros Hni. apply Hnew. cbn [map fst In]. intros [Heq|Hi]; [|auto].
        rewrite Heq, String.eqb_refl in E. discriminate E.
Qed.

Lemma phase_inv_step (tasks : list Task) pm t :
  phase_inv tasks pm ->
  phase_inv (tasks ++ [t]) (if String.eqb (phase t) "" then pm else add_to_phase pm t).
Proof.
  intros (Hnd & Hf & Hcov). destruct (String.eqb (phase t) "") eqn:Ep.
  - apply String.eqb_eq in Ep. split; [exact Hnd|split].
    + rewrite Forall_forall in Hf |- *. intros e He. destruct (Hf e He) as [H1 H2].
      split; [exact H1|]. rewrite filter_snoc_other; [exact H2|].
      rewrite Ep. apply String.eqb_neq. intros H. apply H1. symmetry. exact H.
    + apply Forall_app. split; [exact Hcov|]. constructor; [|constructor].
      intros H. contradiction.
  - apply String.eqb_neq in Ep. split; [|split].
    + rewrite add_to_phase_names.
      destruct (existsb _ _) eqn:E; [exact Hnd|].
      apply NoDup_app; [exact Hnd | constructor; [intros []|constructor] |].
      intros x Hx [<-|[]]. assert (Hx' : existsb (fun n => String.eqb n (phase t)) (map fst pm) = true).
      { apply existsb_exists. exists (phase t). rewrite String.eqb_refl. auto. }
      congruence.
    + apply add_to_phase_entries; auto.
      intros Hni. rewrite (filter_ext_in _ (fun _ => false)); [apply filter_false|].
      intros a Ha. destruct (String.eqb (phase a) (phase t)) eqn:E; [|reflexivity].
      apply String.eqb_eq in E. rewrite Forall_forall in Hcov.
      exfalso. apply Hni. rewrite <- E. apply Hcov; [exact Ha|]. rewrite E. exact Ep.
    + apply Forall_app. split.
      * rewrite Forall_forall in Hcov |- *. intros a Ha Hpa.
        rewrite add_to_phase_names. destruct (existsb _ _); [|apply in_or_app; left]; auto.
      * constructor; [|constructor]. intros _. rewrite add_to_phase_names.
        destruct (existsb _ _) eqn:E.
        -- apply existsb_exists in E as (n & Hn & Hnt). apply String.eqb_eq in Hnt.
           subst n. exact Hn.
        -- apply in_or_app. right. left. reflexivity.
Qed.

Lemma collect_inv cols i rows tasks pm tasks' pm' :
  phase_inv tasks pm -> Forall built tasks ->
  collect_ cols i rows tasks pm = Ret (tasks', pm') ->
  phase_inv tasks' pm' /\ Forall built tasks'.
Proof.
  revert i tasks pm. induction rows as [|r rs IH]; intros i tasks pm Hinv Hb H.
  - cbn in H. injection H as <- <-. auto.
  - cbn [collect] in H.
    destruct (row_task_ cols i r) as [[t|]|e] eqn:Er; [| |discriminate H].
    + apply (IH (S i) _ _ (phase_inv_step _ _ t Hinv)); [|exact H].
      apply Forall_app. split; [exact Hb|]. constructor; [|constructor].
      exact (row_task_built _ _ _ _ Er).
    + exact (IH _ _ _ Hinv Hb H).
Qed.

Lemma load_rows_inv (rows : list (list cell)) (d : @ProjectData F) :
  load rows = Ret (inr d) ->
  exists tasks pm, d = finish F_of_Z F_add F_div F_round now tasks pm /\
    phase_inv tasks pm /\ Forall built tasks.
Proof.
  unfold load_rows. destruct rows as [|h [|r rs]]; try discriminate.
  destruct (find_cols _) as [cols|e]; [|discriminate].
  destruct (collect _ _ _ _ _ _ _ _ _ _ _ _ _ _ _ _) as [[tasks pm]|e] eqn:E; [|discriminate].
  intros H. injection H as <-. exists tasks, pm. split; [reflexivity|].
  refine (collect_inv _ 1 (r :: rs) [] [] _ _ _ _ E); [|constructor].
  split; [constructor|split; constructor].
Qed.

Lemma count_partition (ts : list Task) :
  Forall (fun t => status t <> blocked) ts ->
  length ts = (length (filter (fun t => TaskStatus_eqb (status t) completed) ts) +
               length (filter (fun t => TaskStatus_eqb (status t) in_progress) ts) +
               length (filter (fun t => TaskStatus_eqb (status t) not_started) ts))%nat.
Proof.
  induction ts as [|t ts IH]; intros H; [reflexivity|].
  inversion H as [|? ? Ht Hts]; subst. cbn [filter length].
  specialize (IH Hts). destruct (status t); cbn; try lia. contradiction.
Qed.

Lemma count_overdue (ts : list Task) (p : Task -> bool) :
  Forall (fun t => status t <> blocked) ts ->
  (length (filter (fun t => negb (TaskStatus_eqb (status t) completed) && p t) ts) <=
   length (filter (fun t => TaskStatus_eqb (status t) in_progress) ts) +
   length (filter (fun t => TaskStatus_eqb (status t) not_started) ts))%nat.
Proof.
  induction ts as [|t ts IH]; intros H; [cbn; lia|].
  inversion H as [|? ? Ht Hts]; subst. cbn [filter length].
  specialize (IH Hts). destruct (status t); cbn; destruct (p t); cbn; try lia. contradiction.
Qed.

(** When [fetchProjectData] of [src/types.ts] loads a sheet, every task
    has a non-empty activity and is never [blocked]; the total is the number
    of tasks and the sum of the completed, in-progress and not-started
    counts; and the overdue count is at most the in-progress and
    not-started tasks together. *)
Theorem load_rows_stats (rows : list (list cell)) (d : @ProjectData F) :
  load rows = Ret (inr d) ->
  Forall (fun t => activity t <> "" /\ status t <> blocked) (pd_tasks d) /\
  total (stats d) = Z.of_nat (length (pd_tasks d)) /\
  total (stats d) = completed_n (stats d) + inProgress_n (stats d) + notStarted_n (stats d) /\
  overdue (stats d) <= inProgress_n (stats d) + notStarted_n (stats d).
Proof.
  intros H. destruct (load_rows_inv _ _ H) as (tasks & pm & -> & _ & Hb).
  assert (Hnb : Forall (fun t => status t <> blocked) tasks).
  { eapply Forall_impl; [|exact Hb]. intros t [_ Hs]. rewrite Hs. apply determineStatus_not_blocked. }
  unfold finish, count. cbn [pd_tasks stats total completed_n inProgress_n notStarted_n overdue].
  split; [|split; [reflexivity|split]].
  - eapply Forall_impl; [|exact Hb]. intros t [Ha Hs]. split; [exact Ha|].
    rewrite Hs. apply determineStatus_not_blocked.
  - rewrite (count_partition _ Hnb) at 1. lia.
  - pose proof (count_overdue tasks (fun t => negb (String.eqb (endDate t) "") &&
                   String.ltb (endDate t) (split_first "T" (toISOString now))) Hnb) as Ho.
    rewrite (filter_ext _ (fun t => negb (TaskStatus_eqb (status t) completed) &&
                  (negb (String.eqb (endDate t) "") &&
                   String.ltb (endDate t) (split_first "T" (toISOString now))))).
    + lia.
    + intros t. symmetry. apply andb_assoc.
Qed.

(** When [fetchProjectData] of [src/types.ts] loads a sheet, the phases have
    distinct non-empty names; the tasks of a phase are exactly the loaded
    tasks with that phase, in row order; and every task with a non-empty
    phase belongs to a phase. *)
Theorem load_rows_phases (rows : list (list cell)) (d : @ProjectData F) :
  load rows = Ret (inr d) ->
  NoDup (map ph_name (pd_phases d)) /\
  Forall (fun p => ph_name p <> "" /\
            ph_tasks p = filter (fun t => String.eqb (phase t) (ph_name p)) (pd_tasks d))
    (pd_phases d) /\
  Forall (fun t => phase t <> "" -> In (phase t) (map ph_name (pd_phases d))) (pd_tasks d).
Proof.
  intros H. destruct (load_rows_inv _ _ H) as (tasks & pm & -> & (Hnd & Hf & Hcov) & _).
  unfold finish. cbn [pd_phases pd_tasks].
  assert (Hn : map ph_name (map (build_phase F_of_Z F_add F_div F_round) pm) = map fst pm).
  { rewrite map_map. apply map_ext. intros [n ts]. reflexivity. }
  rewrite Hn. split; [exact Hnd|split; [|exact Hcov]].
  apply Forall_map. eapply Forall_impl; [|exact Hf]. intros [n ts]. cbn. auto.
Qed.

End Stats.

Section NoActivity.
Variable dts : option tv -> string.
Variable lp : string -> option tv.
Variable pdc : Z -> option (Z * Z * Z).
Context {F : Type}.
Variable F_of_Z : Z -> F.
Variable F_nan : F.
Variables F_add F_sub F_mul F_div : F -> F -> F.
Variable F_round : F -> F.
Variable now : tv.
Variable lm : Z.



End NoActivity.

Lemma load_rows_stats_witness :
  exists d, load_rows (fun _ => "") (fun _ => None) (fun _ => None) (fun z => z) 0 Z.add Z.sub Z.mul Z.div
    (fun z => z) (mkTv (mkCivil 2025 10 10) 0) 1760054400000 (let header := [CStr "Phase"; CStr "Activity"; CStr "Start Date"; CStr "End Date"] in
      [header; [CStr "Phase 1: Setup"; CStr "Kickoff"; CStr "2025-10-01"; CStr "2025-10-20"];
               [CStr "Phase 1: Setup"; CStr "Audit"; CStr "2025-09-01"; CStr "2025-09-20"];
               [CStr ""; CStr "Review"; CStr ""; CStr "2025-10-05"]]) = Ret (inr d) /\
  Forall (fun t => activity t <> "" /\ status t <> blocked) (pd_tasks d) /\
  total (stats d) = Z.of_nat (length (pd_tasks d)) /\
  total (stats d) = completed_n (stats d) + inProgress_n (stats d) + notStarted_n (stats d) /\
  overdue (stats d) <= inProgress_n (stats d) + notStarted_n (stats d).
Proof.
  eexists. refine (conj eq_refl _).
  exact (load_rows_stats (fun _ => "") (fun _ => None) (fun _ => None) (fun z => z) 0 Z.add Z.sub Z.mul Z.div
    (fun z => z) (mkTv (mkCivil 2025 10 10) 0) 1760054400000 (let header := [CStr "Phase"; CStr "Activity"; CStr "Start Date"; CStr "End Date"] in
      [header; [CStr "Phase 1: Setup"; CStr "Kickoff"; CStr "2025-10-01"; CStr "2025-10-20"];
               [CStr "Phase 1: Setup"; CStr "Audit"; CStr "2025-09-01"; CStr "2025-09-20"];
               [CStr ""; CStr "Review"; CStr ""; CStr "2025-10-05"]]) _ eq_refl).
Defined.

Lemma load_rows_phases_witness :
  exists d, load_rows (fun _ => "") (fun _ => None) (fun _ => None) (fun z => z) 0 Z.add Z.sub Z.mul Z.div
    (fun z => z) (mkTv (mkCivil 2025 10 10) 0) 1760054400000 (let header := [CStr "Phase"; CStr "Activity"; CStr "Start Date"; CStr "End Date"] in
      [header; [CStr "Phase 1: Setup"; CStr "Kickoff"; CStr "2025-10-01"; CStr "2025-10-20"];
               [CStr "Phase 1: Setup"; CStr "Audit"; CStr "2025-09-01"; CStr "2025-09-20"];
               [CStr ""; CStr "Review"; CStr ""; CStr "2025-10-05"]]) = Ret (inr d) /\
  NoDup (map ph_name (pd_phases d)) /\
  Forall (fun p => ph_name p <> "" /\
            ph_tasks p = filter (fun t => String.eqb (phase t) (ph_name p)) (pd_tasks d))
    (pd_phases d) /\
  Forall (fun t => phase t <> "" -> In (phase t) (map ph_name (pd_phases d))) (pd_tasks d).
Proof.
  eexists. refine (conj eq_refl _).
  exact (load_rows_phases (fun _ => "") (fun _ => None) (fun _ => None) (fun z => z) 0 Z.add Z.sub Z.mul Z.div
    (fun z => z) (mkTv (mkCivil 2025 10 10) 0) 1760054400000 (let header := [CStr "Phase"; CStr "Activity"; CStr "Start Date"; CStr "End Date"] in
      [header; [CStr "Phase 1: Setup"; CStr "Kickoff"; CStr "2025-10-01"; CStr "2025-10-20"];
               [CStr "Phase 1: Setup"; CStr "Audit"; CStr "2025-09-01"; CStr "2025-09-20"];
               [CStr ""; CStr "Review"; CStr ""; CStr "2025-10-05"]]) _ eq_refl).
Defined.




Lemma str_compare_gt_split a b c :
  String.compare a c = Gt -> String.compare a b = Gt \/ String.compare b c = Gt.
Proof.
  revert b c. induction a as [|x a IH]; intros b c H.
  - destruct c; discriminate H.
  - destruct c as [|z c]; [destruct b; auto|].
    destruct b as [|y b]; [left; reflexivity|].
    cbn [String.compare] in *. unfold Ascii.compare in *.
    destruct (N.compare_spec (N_of_ascii x) (N_of_ascii z)) as [Exz|Exz|Exz];
    destruct (N.compare_spec (N_of_ascii x) (N_of_ascii y)) as [Exy|Exy|Exy];
    destruct (N.compare_spec (N_of_ascii y) (N_of_ascii z)) as [Eyz|Eyz|Eyz];
    try discriminate H; auto; try lia; apply IH; exact H.
Qed.

Lemma str_le_trans a b c :
  String.compare a b <> Gt -> String.compare b c <> Gt -> String.compare a c <> Gt.
Proof.
  intros H1 H2 H3. destruct (str_compare_gt_split a b c H3); contradiction.
Qed.

Definition str_le (a b : string) : Prop := String.compare a b <> Gt.

Lemma str_le_refl a : str_le a a.
Proof.
  unfold str_le. induction a as [|c a IH]; cbn; [discriminate|].
  unfold Ascii.compare. rewrite N.compare_refl. exact IH.
Qed.

Lemma str_le_total a b : str_le a b \/ str_le b a.
Proof.
  unfold str_le. rewrite (String.compare_antisym b a).
  destruct (String.compare a b); cbn; [left|left|right]; discriminate.
Qed.

Lemma in_insert_sorted x y l : In x (insert_sorted y l) <-> x = y \/ In x l.
Proof.
  induction l as [|z l IH]; cbn [insert_sorted]; [cbn; intuition|].
  destruct (String.compare y z); cbn [In]; try rewrite IH; intuition.
Qed.

Lemma in_sort x l : In x (sort l) <-> In x l.
Proof.
  induction l as [|y l IH]; [reflexivity|]. cbn [sort fold_right].
  change (fold_right insert_sorted [] l) with (sort l).
  rewrite in_insert_sorted, IH. cbn. intuition.
Qed.

Lemma insert_sorted_sorted x l : Sorted str_le l -> Sorted str_le (insert_sorted x l).
Proof.
  induction l as [|y l IH]; intros H; cbn [insert_sorted]; [repeat constructor|].
  destruct (String.compare x y) eqn:E.
  - apply String.compare_eq_iff in E. subst y.
    apply Sorted_inv in H as [Hl Hr]. constructor; [apply IH; exact Hl|].
    destruct l as [|z l]; cbn [insert_sorted]; [constructor; apply str_le_refl|].
    destruct (String.compare x z); constructor; first [apply str_le_refl | inversion Hr; assumption].
  - constructor; [exact H|]. constructor. unfold str_le. rewrite E. discriminate.
  - apply Sorted_inv in H as [Hl Hr]. constructor; [apply IH; exact Hl|].
    assert (Hyx : str_le y x).
    { unfold str_le. rewrite String.compare_antisym, E. discriminate. }
    destruct l as [|z l]; cbn [insert_sorted]; [constructor; exact Hyx|].
    destruct (String.compare x z); constructor; first [exact Hyx | inversion Hr; assumption].
Qed.

Lemma sort_sorted l : Sorted str_le (sort l).
Proof.
  induction l as [|y l IH]; [constructor|]. apply insert_sorted_sorted. exact IH.
Qed.

Lemma sort_strongly l : StronglySorted str_le (sort l).
Proof.
  apply Sorted_StronglySorted; [|apply sort_sorted].
  intros a b c. apply str_le_trans.
Qed.

Lemma strongly_last l z : StronglySorted str_le (l ++ [z]) -> Forall (fun y => str_le y z) l.
Proof.
  induction l as [|y l IH]; intros H; [constructor|].
  cbn in H. apply StronglySorted_inv in H as [H1 H2]. constructor.
  - rewrite Forall_forall in H2. apply H2. apply in_or_app. right. left. reflexivity.
  - apply IH. exact H1.
Qed.

(** The first element of [l.sort()], or [''] for an empty list. *)
Lemma sort_head l :
  (l = [] /\ match sort l with x :: _ => x | [] => "" end = "") \/
  (In (match sort l with x :: _ => x | [] => "" end) l /\
   Forall (fun y => str_le (match sort l with x :: _ => x | [] => "" end) y) l).
Proof.
  destruct (sort l) as [|m s] eqn:E.
  - left. destruct l as [|y l]; [auto|].
    exfalso. assert (Hy : In y (sort (y :: l))) by (apply in_sort; left; reflexivity).
    rewrite E in Hy. destruct Hy.
  - right. split.
    + apply in_sort. rewrite E. left. reflexivity.
    + apply Forall_forall. intros y Hy. apply in_sort in Hy. rewrite E in Hy.
      pose proof (sort_strongly l) as Hs. rewrite E in Hs.
      apply StronglySorted_inv in Hs as [_ Hs]. rewrite Forall_forall in Hs.
      destruct Hy as [<-|Hy]; [apply str_le_refl | apply Hs; exact Hy].
Qed.

(** The first element of [l.sort().reverse()], or [''] for an empty list. *)
Lemma sort_rev_head l :
  (l = [] /\ match rev (sort l) with x :: _ => x | [] => "" end = "") \/
  (In (match rev (sort l) with x :: _ => x | [] => "" end) l /\
   Forall (fun y => str_le y (match rev (sort l) with x :: _ => x | [] => "" end)) l).
Proof.
  destruct (rev (sort l)) as [|m s] eqn:E.
  - left. destruct l as [|y l]; [auto|].
    exfalso. assert (Hy : In y (sort (y :: l))) by (apply in_sort; left; reflexivity).
    apply in_rev in Hy. rewrite E in Hy. destruct Hy.
  - right.
    assert (Hsl : sort l = rev s ++ [m]).
    { rewrite <- (rev_involutive (sort l)), E. reflexivity. }
    split.
    + apply in_sort. rewrite Hsl. apply in_or_app. right. left. reflexivity.
    + apply Forall_forall. intros y Hy. apply in_sort in Hy. rewrite Hsl in Hy.
      pose proof (sort_strongly l) as Hs. rewrite Hsl in Hs.
      apply strongly_last in Hs. rewrite Forall_forall in Hs.
      apply in_app_or in Hy as [Hy|[<-|[]]]; [apply Hs; exact Hy | apply str_le_refl].
Qed.

Lemma leb_of_le a b : str_le a b -> String.leb a b = true.
Proof. unfold str_le, String.leb. destruct (String.compare a b); auto. Qed.

Lemma nonempty_dates {F : Type} (sel : @Task F -> string) (ts : list (@Task F)) x :
  In x (map sel (filter (fun t => negb (String.eqb (sel t) "")) ts)) ->
  In x (map sel ts) /\ x <> "".
Proof.
  rewrite in_map_iff. intros (t & <- & Ht). apply filter_In in Ht as [Ht He].
  split; [apply in_map; exact Ht|]. intros E. rewrite E in He. discriminate He.
Qed.

Lemma nonempty_dates_nil {F : Type} (sel : @Task F -> string) (ts : list (@Task F)) :
  map sel (filter (fun t => negb (String.eqb (sel t) "")) ts) = [] ->
  Forall (fun t => sel t = "") ts.
Proof.
  intros H. apply Forall_forall. intros t Ht.
  destruct (String.eqb (sel t) "") eqn:E; [apply String.eqb_eq; exact E|].
  assert (Hin : In (sel t) (map sel (filter (fun t => negb (String.eqb (sel t) "")) ts))).
  { apply in_map, filter_In. rewrite E. auto. }
  rewrite H in Hin. destruct Hin.
Qed.

Lemma nonempty_dates_all {F : Type} (sel : @Task F -> string) (ts : list (@Task F)) (P : string -> Prop) :
  Forall P (map sel (filter (fun t => negb (String.eqb (sel t) "")) ts)) ->
  Forall (fun t => sel t = "" \/ P (sel t)) ts.
Proof.
  rewrite Forall_forall. intros H. apply Forall_forall. intros t Ht.
  destruct (String.eqb (sel t) "") eqn:E; [left; apply String.eqb_eq; exact E|].
  right. apply H, in_map, filter_In. rewrite E. auto.
Qed.

(** The start date of a phase built by [fetchProjectData] of
    [src/types.ts] is empty when none of its tasks has a start date, and
    otherwise the least non-empty start date of its tasks in string order;
    its end date is likewise empty or the greatest non-empty end date. *)
Theorem build_phase_dates {F : Type} (F_of_Z : Z -> F) F_add F_div F_round
    (n : string) (ts : list (@Task F)) :
  let p := build_phase F_of_Z F_add F_div F_round (n, ts) in
  ((Forall (fun t => startDate t = "") ts /\ ph_startDate p = "") \/
   (In (ph_startDate p) (map startDate ts) /\ ph_startDate p <> "" /\
    Forall (fun t => startDate t = "" \/ String.leb (ph_startDate p) (startDate t) = true) ts)) /\
  ((Forall (fun t => endDate t = "") ts /\ ph_endDate p = "") \/
   (In (ph_endDate p) (map endDate ts) /\ ph_endDate p <> "" /\
    Forall (fun t => endDate t = "" \/ String.leb (endDate t) (ph_endDate p) = true) ts)).
Proof.
  cbn [build_phase ph_startDate ph_endDate]. split.
  - destruct (sort_head (map startDate (filter (fun t => negb (String.eqb (startDate t) "")) ts)))
      as [[H1 H2]|[H1 H2]].
    + left. split; [apply nonempty_dates_nil; exact H1 | exact H2].
    + right. apply nonempty_dates in H1 as [H1 H1']. split; [exact H1|split; [exact H1'|]].
      apply nonempty_dates_all in H2. eapply Forall_impl; [|exact H2].
      intros t [Ht|Ht]; [left; exact Ht | right; apply leb_of_le; exact Ht].
  - destruct (sort_rev_head (map endDate (filter (fun t => negb (String.eqb (endDate t) "")) ts)))
      as [[H1 H2]|[H1 H2]].
    + left. split; [apply nonempty_dates_nil; exact H1 | exact H2].
    + right. apply nonempty_dates in H1 as [H1 H1']. split; [exact H1|split; [exact H1'|]].
      apply nonempty_dates_all in H2. eapply Forall_impl; [|exact H2].
      intros t [Ht|Ht]; [left; exact Ht | right; apply leb_of_le; exact Ht].
Qed.

(** On a header row without blank cells, [findCol] of [src/types.ts]
    returns normally: [-1] exactly when no keyword occurs in any trimmed
    lower-case header, and otherwise an index [i]: the keywords before the
    matching one occur in no header, the header at [i] contains the matching
    keyword, and no earlier header does. *)
Theorem findCol_priority hs kws :
  let lower := map (fun h => trim (toLowerCase h)) hs in
  let absent kw := forallb (fun l => negb (includes l (toLowerCase kw))) lower = true in
  exists z, findCol (map Some hs) kws = Ret z /\
  (z = -1 <-> Forall absent kws) /\
  (z = -1 \/ exists i, z = Z.of_nat i) /\
  (forall i, z = Z.of_nat i ->
   exists pre kw post l,
     kws = pre ++ kw :: post /\ Forall absent pre /\
     nth_error lower i = Some l /\ includes l (toLowerCase kw) = true /\
     forallb (fun l' => negb (includes l' (toLowerCase kw))) (firstn i lower) = true).
Proof.
  intros lower absent.
  induction kws as [|kw kws IH].
  - exists (-1). split; [reflexivity|].
    split; [split; auto|split; [left; reflexivity|]]. intros i H. lia.
  - rewrite findCol_holefree_cons. fold lower.
    destruct (find_index (fun l => includes l (toLowerCase kw)) lower) as [j|] eqn:E.
    + exists (Z.of_nat j). split; [reflexivity|].
      destruct (find_index_first _ _ _ E) as (l & Hl & Hf & Hpre).
      split; [|split].
      * split; [lia|]. intros Ha. inversion Ha as [|? ? Hkw _]; subst.
        unfold absent in Hkw. rewrite <- find_index_none in Hkw. congruence.
      * right. eauto.
      * intros i Hi. apply Nat2Z.inj in Hi. subst j.
        exists [], kw, kws, l. repeat split; auto.
    + destruct IH as (z & Hz & IH1 & IH2 & IH3). exists z. split; [exact Hz|].
      split; [|split; [exact IH2|]].
      * rewrite IH1. split; intros H.
        -- constructor; [|exact H]. unfold absent. apply find_index_none. exact E.
        -- inversion H; assumption.
      * intros i Hi. destruct (IH3 i Hi) as (pre & kw' & post & l & -> & H1 & H2 & H3 & H4).
        exists (kw :: pre), kw', post, l. repeat split; auto.
        constructor; [|exact H1]. unfold absent. apply find_index_none. exact E.
Qed.

Lemma findCol_priority_witness :
  findCol (map Some ["Start"; "Start Date"]) ["start date"; "start"] = Ret (Z.of_nat 1) /\
  exists pre kw post l,
    ["start date"; "start"] = pre ++ kw :: post /\
    Forall (fun kw => forallb (fun l => negb (includes l (toLowerCase kw)))
                        (map (fun h => trim (toLowerCase h)) ["Start"; "Start Date"]) = true) pre /\
    nth_error (map (fun h => trim (toLowerCase h)) ["Start"; "Start Date"]) 1%nat = Some l /\
    includes l (toLowerCase kw) = true /\
    forallb (fun l' => negb (includes l' (toLowerCase kw)))
      (firstn 1%nat (map (fun h => trim (toLowerCase h)) ["Start"; "Start Date"])) = true.
Proof.
  destruct (findCol_priority ["Start"; "Start Date"] ["start date"; "start"])
    as (z & Hz & _ & _ & H3).
  assert (Hz1 : z = Z.of_nat 1) by (vm_compute in Hz; injection Hz as <-; reflexivity).
  split; [rewrite <- Hz1; exact Hz|].
  exact (H3 1%nat Hz1).
Defined.

End LoaderFacts.

(** ** Sheet ids *)
Module SheetIdFacts.
Import JS SheetId.

Lemma span_id_app id rest : span_id id = id -> span_id (id ++ rest) = id ++ span_id rest.
Proof.
  induction id as [|c id IH]; [reflexivity|]. cbn. destruct (is_id_char c).
  - intros H. injection H as H. rewrite IH by exact H. reflexivity.
  - discriminate.
Qed.

Lemma str_app_nil s : (s ++ "")%string = s.
Proof. induction s as [|c s IH]; [reflexivity|]. cbn. rewrite IH. reflexivity. Qed.

(** [extractSheetId] of [src/types.ts] on a link
    [https://docs.google.com/spreadsheets/d/<id><rest>] returns [<id>] when
    [<id>] is a non-empty run of [[a-zA-Z0-9-_]] and [<rest>] does not start
    with such a character. *)
Theorem extractSheetId_url id rest
  (Hid : span_id id = id) (Hne : id <> "") (Hrest : span_id rest = "") :
  extractSheetId ("https://docs.google.com/spreadsheets/d/" ++ id ++ rest) = Some id.
Proof.
  unfold extractSheetId. simpl.
  unfold sheet_at at 1. cbn [prefixb after_prefix Ascii.eqb Bool.eqb andb].
  rewrite span_id_app by exact Hid. rewrite Hrest, str_app_nil.
  destruct id; [contradiction|reflexivity].
Qed.
Lemma match_sheet_no_slash s : includes s "/" = false -> match_sheet s = None.
Proof.
  induction s as [|c s IH]; intros H; [reflexivity|].
  cbn [includes] in H. apply orb_false_iff in H as [H1 H2].
  cbn [match_sheet]. unfold sheet_at. cbn [prefixb] in H1 |- *.
  rewrite andb_true_r in H1. rewrite H1. cbn [andb]. apply IH. exact H2.
Qed.

(** [extractSheetId] of [src/types.ts] on a text without ['/'] returns the
    trimmed text when it is longer than 20 characters and [null] otherwise. *)
Theorem extractSheetId_no_slash s (H : includes s "/" = false) :
  extractSheetId s = if 20 <? Z.of_nat (String.length s) then Some (trim s) else None.
Proof.
  unfold extractSheetId. rewrite H. cbn [negb andb].
  destruct (20 <? _); [reflexivity|]. apply match_sheet_no_slash. exact H.
Qed.

Lemma extractSheetId_url_witness :
  span_id "1AbC-d_9" = "1AbC-d_9" /\ span_id "/edit#gid=0" = "" /\
  extractSheetId ("https://docs.google.com/spreadsheets/d/" ++ "1AbC-d_9" ++ "/edit#gid=0") = Some "1AbC-d_9".
Proof.
  split; [reflexivity|split; [reflexivity|]].
  exact (extractSheetId_url "1AbC-d_9" "/edit#gid=0" eq_refl ltac:(discriminate) eq_refl).
Defined.

Lemma extractSheetId_no_slash_witness :
  includes "1AbCdEfGhIjKlMnOpQrStUvWxYz" "/" = false /\ includes "short" "/" = false /\
  extractSheetId "1AbCdEfGhIjKlMnOpQrStUvWxYz" = Some "1AbCdEfGhIjKlMnOpQrStUvWxYz" /\
  extractSheetId "short" = None.
Proof.
  split; [reflexivity|split; [reflexivity|split]].
  - exact (extractSheetId_no_slash "1AbCdEfGhIjKlMnOpQrStUvWxYz" eq_refl).
  - exact (extractSheetId_no_slash "short" eq_refl).
Defined.

End SheetIdFacts.

(** ** Dates read and shown by the project-dates script *)
Module DateDisplayFacts.
Import JS Fmt DateParse Shape Facts DmyProofs DateDisplay.

Definition no_dash (s : string) : bool := none_of (fun c => Ascii.eqb c "-") s.

Lemma split_all_app w r : no_dash w = true ->
  split_all "-" (w ++ "-" ++ r) = w :: split_all "-" r.
Proof.
  unfold no_dash. induction w as [|c w IH]; intros H.
  - reflexivity.
  - cbn [none_of] in H. apply andb_prop in H as [H1 H2]. apply negb_true_iff in H1.
    cbn [append split_all]. rewrite H1. specialize (IH H2). cbn [append] in IH.
    rewrite IH. reflexivity.
Qed.

Lemma split_all_single w : no_dash w = true -> split_all "-" w = [w].
Proof.
  unfold no_dash. induction w as [|c w IH]; cbn [none_of split_all]; intros H.
  - reflexivity.
  - apply andb_prop in H as [H1 H2]. apply negb_true_iff in H1.
    rewrite H1, IH by exact H2. reflexivity.
Qed.

Lemma digit_no_dash c : is_digit c = true -> Ascii.eqb c "-" = false.
Proof. intros H. apply word_not_dash, digit_word, H. Qed.

Lemma digits4_no_dash y : digits4 y = true -> no_dash y = true /\ y <> "".
Proof.
  intros Hy. destruct y as [|a [|b [|c [|d [|]]]]]; try discriminate.
  simpl in Hy. split_bools. split; [|discriminate].
  unfold no_dash. cbn [none_of].
  rewrite !digit_no_dash by assumption. reflexivity.
Qed.

Lemma pad_no_dash d : day_token d = true -> no_dash (padStart2 d) = true.
Proof.
  intros Hd. destruct d as [|a [|b [|]]]; try discriminate; simpl in Hd; split_bools;
    unfold no_dash, padStart2; cbn [none_of];
    repeat match goal with
    | H : is_digit ?c = true |- context [Ascii.eqb ?c "-"] => rewrite (digit_no_dash c H)
    end; reflexivity.
Qed.

Lemma lookup_months_in m v : lookup m months = Some v -> In (m, v) months.
Proof.
  unfold months. cbn [lookup].
  repeat match goal with
  | |- context [String.eqb m ?k] =>
      destruct (String.eqb_spec m k); [intros H; injection H as <-; subst; simpl; tauto|]
  end.
  discriminate.
Qed.

Lemma format_iso y mm pd name :
  no_dash y = true -> y <> "" -> no_dash mm = true -> no_dash pd = true ->
  match parseInt mm with
  | Some k => if (1 <=? k) && (k <=? 12) then nth_error month_names (Z.to_nat (k - 1)) else None
  | None => None
  end = Some name ->
  formatDateDisplay (Some (y ++ "-" ++ mm ++ "-" ++ pd)) = pd ++ "-" ++ name ++ "-" ++ y.
Proof.
  intros Hy Hne Hmm Hpd Hname. unfold formatDateDisplay.
  replace (String.eqb (y ++ "-" ++ mm ++ "-" ++ pd) "") with false
    by (destruct y; [contradiction|reflexivity]).
  rewrite split_all_app by exact Hy. rewrite split_all_app by exact Hmm.
  rewrite split_all_single by exact Hpd. cbn [nth_error].
  rewrite Hname. reflexivity.
Qed.

(** A [D-Mon-YYYY] cell read by [parseDate] and shown by [formatDateDisplay]
    (the project-dates script) comes back as [DD-Mon-YYYY]: the day padded
    to two digits, the year unchanged, and the month unchanged when it is one
    of the twelve abbreviations of the month table, ["Jan"] otherwise. *)
Theorem parseDate_formatDateDisplay (d m y : string)
  (Hd : day_token d = true) (Hm : word3 m = true) (Hy : digits4 y = true) :
  forall legacy_parse date_of_number local_offset make_local,
  exists iso,
    parseDate_issues legacy_parse date_of_number local_offset make_local
      (CStr (d ++ "-" ++ m ++ "-" ++ y)) = Ret (Some iso) /\
    formatDateDisplay (Some iso) =
      padStart2 d ++ "-" ++ (match lookup m months with Some _ => m | None => "Jan" end)
      ++ "-" ++ y.
Proof.
  intros legacy_parse date_of_number local_offset make_local.
  exists (format_dmy (d, m, y)). split.
  - unfold parseDate_issues. cbn [truthy js_String].
    rewrite (token_nonempty d m y Hd). cbn [negb].
    rewrite (match_dmy_token d m y Hd Hm Hy). reflexivity.
  - destruct (digits4_no_dash y Hy) as [Hy1 Hy2].
    pose proof (pad_no_dash d Hd) as Hpd.
    unfold format_dmy.
    destruct (lookup m months) as [v|] eqn:E.
    + apply lookup_months_in in E. unfold months in E.
      simpl in E.
      repeat (destruct E as [E|E]; [injection E as <- <-; apply format_iso; auto; reflexivity|]).
      contradiction.
    + apply format_iso; auto; reflexivity.
Qed.

Lemma parseDate_formatDateDisplay_witness :
  day_token "1" = true /\ word3 "Oct" = true /\ digits4 "2025" = true /\
  exists iso,
    parseDate_issues (fun _ => None) (fun _ => None) (fun _ => 0) (fun c => mkTv c 0)
      (CStr ("1" ++ "-" ++ "Oct" ++ "-" ++ "2025")%string) = Ret (Some iso) /\
    formatDateDisplay (Some iso) = "01-Oct-2025".
Proof.
  split; [reflexivity|split; [reflexivity|split; [reflexivity|]]].
  exact (parseDate_formatDateDisplay "1" "Oct" "2025" eq_refl eq_refl eq_refl
           (fun _ => None) (fun _ => None) (fun _ => 0) (fun c => mkTv c 0)).
Defined.

End DateDisplayFacts.
